(** * remoteio client: a shallow embedding of [remoteio_client.py]

    The client is two Python classes.  [RemoteServer] owns one TCP socket,
    connected in its constructor; [RemotePin] is a handle that shares this
    socket and turns the four actions [on], [blink], [pulse], [off] into
    text commands sent with [sendall].

    The embedding keeps what the code has:
    - Python [str] values are lists of Unicode code points, [bytes] values
      are lists of [Byte.byte], and [str.encode()] is the UTF-8 codec with
      the [strict] error handler;
    - Python [int] values are [Z]; converting one to a [str] raises
      [ValueError] when it has more than 4300 decimal digits, as CPython
      does by default;
    - objects live in a store indexed by references, so that [return self]
      and the socket shared by every handle are visible as equal references;
    - methods are computations in a state-and-exception monad over that
      store: an exception leaves the store as it was when it was raised. *)

From Stdlib Require Import ZArith NArith Lia.
From Stdlib Require Import Strings.String Strings.Ascii Strings.Byte.
From Stdlib Require Import Numbers.DecimalString Numbers.DecimalPos Numbers.DecimalZ.
From stdpp Require Import base option list gmap.

Local Open Scope N_scope.

(** ** Python values: [str], [bytes], [int] *)

Definition codepoint := N.

(** A Python [str]; its characters are code points below [0x110000]. *)
Definition str := list codepoint.

Definition bytes := list byte.

Definition byte_of_N (n : N) : byte :=
  match Byte.of_N n with
  | Some b => b
  | None => x00
  end.

(** A string literal of the source, as a [str]: one character per byte of
    the literal (all literals of the client are ASCII). *)
Definition lit (s : string) : str :=
  map Byte.to_N (list_byte_of_string s).

(** [str(n)] and the [{n}] replacement field of an f-string, for an [int]:
    the decimal digits, with a leading minus sign for a negative value. *)
Definition decimal (n : Z) : string :=
  NilZero.string_of_int (Z.to_int n).

Definition str_of_int (n : Z) : str := lit (decimal n).

(** The number of decimal digits of [n], its sign apart. *)
Definition digits (n : Z) : nat := String.length (decimal (Z.abs n)).

(** [sys.get_int_max_str_digits()].  CPython refuses to convert an [int]
    of more decimal digits than this to a [str]; the value is the
    interpreter's default, which the client never changes. *)
Definition int_max_str_digits : nat := 4300.

Definition int_fits_str (n : Z) : bool := (digits n <=? int_max_str_digits)%nat.

(** *** [str.encode()]: UTF-8, error handler [strict] *)

Definition is_surrogate (c : codepoint) : bool :=
  (0xD800 <=? c) && (c <=? 0xDFFF).

Definition continuation (c : N) : byte :=
  byte_of_N (N.lor 0x80 (N.land c 0x3F)).

(** The bytes of one character, or [None] where the codec raises
    [UnicodeEncodeError] (a lone surrogate).  A value from [0x110000] on is
    no character of a [str] and has no encoding either. *)
Definition utf8_char (c : codepoint) : option bytes :=
  if c <? 0x80 then Some [byte_of_N c]
  else if c <? 0x800 then
    Some [byte_of_N (N.lor 0xC0 (N.shiftr c 6)); continuation c]
  else if c <? 0x10000 then
    if is_surrogate c then None
    else Some [byte_of_N (N.lor 0xE0 (N.shiftr c 12));
               continuation (N.shiftr c 6); continuation c]
  else if c <? 0x110000 then
    Some [byte_of_N (N.lor 0xF0 (N.shiftr c 18));
          continuation (N.shiftr c 12); continuation (N.shiftr c 6);
          continuation c]
  else None.

Fixpoint encode (s : str) : option bytes :=
  match s with
  | [] => Some []
  | c :: s' =>
      match utf8_char c, encode s' with
      | Some b, Some bs => Some (b ++ bs)
      | _, _ => None
      end
  end.

(** [str.encode('ascii')], the codec the wire format is documented with:
    defined on the strings whose characters are all below 128. *)
Definition is_ascii (s : str) : bool := forallb (fun c => c <? 0x80) s.

Definition encode_ascii (s : str) : option bytes :=
  if is_ascii s then Some (map byte_of_N s) else None.

(** ** Exceptions *)

(** The error numbers the socket layer reports to this client. *)
Inductive errno :=
| EBADF | EPIPE | EISCONN | ENETUNREACH | ECONNABORTED | ECONNRESET
| ETIMEDOUT | ECONNREFUSED | EHOSTUNREACH.

(** A raised Python exception.  [OSError e] stands for the exception the
    socket module raises for error number [e]; [gaierror] is the one it
    raises when a host name does not resolve; [ValueError] is what the
    conversion of an [int] with too many digits raises; [RaisedFrom cls
    cause] is what [raise cls(...) from cause] builds: an exception of
    class [cls] whose [__cause__] is [cause]. *)
Inductive exception :=
| OSError (e : errno)
| OverflowError
| AttributeError
| UnicodeEncodeError
| RaisedFrom (cls : string) (cause : exception)
| ValueError
| TypeError
| gaierror.

(** [__cause__] *)
Definition exc_cause (x : exception) : option exception :=
  match x with
  | RaisedFrom _ cause => Some cause
  | _ => None
  end.

(** [isinstance(x, ConnectionError)] for the built-in class: the error
    numbers Python maps to [ConnectionRefusedError], [ConnectionResetError],
    [ConnectionAbortedError] and [BrokenPipeError]. *)
Definition is_ConnectionError (x : exception) : bool :=
  match x with
  | OSError (ECONNREFUSED | ECONNRESET | ECONNABORTED | EPIPE) => true
  | RaisedFrom cls _ => String.eqb cls "ConnectionError"
  | _ => false
  end.

(** ** The object store *)

Definition ref := nat.

Inductive sock_state := Unconnected | Connected | Closed.

(** The state of one stream: what the remote end does with it.  [None] is
    a healthy link; [Some (n, e)] is a link that carries [n] more bytes and
    then fails every send with error number [e]. *)
Definition link := option (nat * errno).

Module Sock.
Record obj := mk {
  state : sock_state;
  budget : link;
  sent : bytes          (* the bytes handed to the transport so far *)
}.
End Sock.

Module Pin.
Record obj := mk {
  client_socket : ref;
  pin_number : Z;
  numbering : str;
  time_ms : Z
}.
End Pin.

Module Server.
Record obj := mk {
  server_ip : str;
  server_port : Z;
  client_socket : ref
}.
End Server.

Inductive object :=
| Socket (s : Sock.obj)
| RemotePinObject (p : Pin.obj)
| RemoteServerObject (r : Server.obj).

(** What answers at an address: nobody (the handshake fails with an error
    number) or a listener, with the link the connection gets.  Before
    that, the host string may be no host name at all (it holds a NUL or
    does not encode as one) or a name that does not resolve. *)
Inductive peer :=
| Unreachable (e : errno)
| Listening (l : link)
| BadHostName
| UnknownHost.

Record world := mkWorld {
  heap : gmap ref object;
  network : str -> Z -> peer
}.

Definition set_heap (h : gmap ref object) (w : world) : world :=
  mkWorld h (network w).

(** ** Computations: state and exceptions *)

Inductive result (A : Type) :=
| Value (a : A)
| Raise (x : exception).
Arguments Value {A} a.
Arguments Raise {A} x.

Definition M (A : Type) : Type := world -> result A * world.

#[global] Instance M_ret : MRet M := fun A a w => (Value a, w).

#[global] Instance M_bind : MBind M := fun A B f m w =>
  match m w with
  | (Value a, w') => f a w'
  | (Raise x, w') => (Raise x, w')
  end.

#[global] Instance M_throw : MThrow exception M := fun A x w => (Raise x, w).

(** A new object, at a reference no object has yet. *)
Definition alloc (o : object) : M ref := fun w =>
  let r := fresh (dom (heap w)) in
  (Value r, set_heap (<[r := o]> (heap w)) w).

Definition store (r : ref) (o : object) : M unit := fun w =>
  (Value tt, set_heap (<[r := o]> (heap w)) w).

(** Reading the attributes of an object through a reference.  Asking an
    object for an attribute its class does not have raises
    [AttributeError]. *)
Definition as_socket (r : ref) : M Sock.obj := fun w =>
  match heap w !! r with
  | Some (Socket s) => (Value s, w)
  | _ => (Raise AttributeError, w)
  end.

Definition as_pin (r : ref) : M Pin.obj := fun w =>
  match heap w !! r with
  | Some (RemotePinObject p) => (Value p, w)
  | _ => (Raise AttributeError, w)
  end.

Definition as_server (r : ref) : M Server.obj := fun w =>
  match heap w !! r with
  | Some (RemoteServerObject s) => (Value s, w)
  | _ => (Raise AttributeError, w)
  end.

Definition connect_to (host : str) (port : Z) : M peer := fun w =>
  (Value (network w host port), w).

(** [s.encode()] *)
Definition str_encode (s : str) : M bytes :=
  match encode s with
  | Some b => mret b
  | None => mthrow UnicodeEncodeError
  end.

(** A replacement field [{n}] of an f-string for an [int]: [format(n, '')],
    which raises [ValueError] for an integer of more than
    [int_max_str_digits] digits. *)
Definition format_int (n : Z) : M str :=
  if int_fits_str n then mret (str_of_int n) else mthrow ValueError.

Definition raise_if (b : bool) (x : exception) : M unit :=
  if b then mthrow x else mret tt.

(** ** The socket module, as far as the client uses it *)

Module socket.

(** [socket.socket(socket.AF_INET, socket.SOCK_STREAM)] *)
Definition socket : M ref :=
  alloc (Socket (Sock.mk Unconnected None [])).

(** [sock.connect((host, port))].  The address is parsed first, in the
    order of the socket module: the host string is converted
    ([TypeError] when it is no host name), the port must fit a C [int]
    ([OverflowError]), the host is resolved ([gaierror]), and the port
    must lie in 0..65535 ([OverflowError]).  Then the handshake is
    attempted and the call blocks until the peer answers or the
    transport gives up. *)
Definition connect (sock : ref) (host : str) (port : Z) : M unit :=
  s ← as_socket sock;
  p ← connect_to host port;
  raise_if (match p with BadHostName => true | _ => false end) TypeError;;
  raise_if ((port <? -2147483648) || (2147483647 <? port))%Z OverflowError;;
  raise_if (match p with UnknownHost => true | _ => false end) gaierror;;
  raise_if ((port <? 0) || (65535 <? port))%Z OverflowError;;
  match Sock.state s with
  | Closed => mthrow (OSError EBADF)
  | Connected => mthrow (OSError EISCONN)
  | Unconnected =>
      match p with
      | Unreachable e => mthrow (OSError e)
      | Listening l => store sock (Socket (Sock.mk Connected l (Sock.sent s)))
      | BadHostName => mthrow TypeError
      | UnknownHost => mthrow gaierror
      end
  end.

(** [sock.sendall(data)]: all of [data] or an exception; on a failing
    link the part that still went out is not reported to the caller, and
    once a send has failed the pipe is broken for every later one. *)
Definition sendall (sock : ref) (data : bytes) : M unit :=
  s ← as_socket sock;
  match Sock.state s with
  | Closed => mthrow (OSError EBADF)
  | Unconnected => mthrow (OSError EPIPE)
  | Connected =>
      match Sock.budget s with
      | None => store sock (Socket (Sock.mk Connected None (Sock.sent s ++ data)))
      | Some (n, e) =>
          if (length data <=? n)%nat then
            store sock (Socket (Sock.mk Connected (Some ((n - length data)%nat, e))
                                        (Sock.sent s ++ data)))
          else
            (store sock (Socket (Sock.mk Connected (Some (0%nat, EPIPE))
                                         (Sock.sent s ++ take n data)));;
             mthrow (OSError e))
      end
  end.

(** [sock.close()] *)
Definition close (sock : ref) : M unit :=
  s ← as_socket sock;
  store sock (Socket (Sock.mk Closed (Sock.budget s) (Sock.sent s))).

End socket.

(** ** class RemotePin *)

Module RemotePin.

(** [RemotePin(client_socket, pin_number, numbering)]: the new object
    with the four attributes [__init__] assigns. *)
Definition __init__ (client_socket : ref) (pin_number : Z) (numbering : str) : M ref :=
  alloc (RemotePinObject (Pin.mk client_socket pin_number numbering 0)).

(** An omitted [time_ms] is [None] and takes the default of the
    signature, [0].  The f-string formats the integer, which is where a
    [time_ms] of too many digits raises. *)
Definition __create_command (self : ref) (command : str) (time_ms : option Z) : M str :=
  let time_ms := default 0%Z time_ms in
  time ← format_int time_ms;
  let cmd := command ++ lit " " ++ time in
  mret cmd.

(** The f-string reads the two attributes and formats the pin number
    (raising for one of too many digits) before anything is done with the
    socket. *)
Definition __send_command (self : ref) (command : str) : M unit :=
  p ← as_pin self;
  pin_number ← format_int (Pin.pin_number p);
  let command := Pin.numbering p ++ lit " " ++ pin_number ++ lit " " ++ command in
  (* the bound method [self.client_socket.sendall] is looked up before
     its argument is evaluated *)
  _ ← as_socket (Pin.client_socket p);
  data ← str_encode command;
  socket.sendall (Pin.client_socket p) data.

Definition on (self : ref) (time_ms : option Z) : M ref :=
  let time_ms := default 0%Z time_ms in
  cmd ← __create_command self (lit "on") (Some time_ms);
  __send_command self cmd;;
  mret self.

Definition blink (self : ref) : M ref :=
  cmd ← __create_command self (lit "blink") None;
  __send_command self cmd;;
  mret self.

Definition pulse (self : ref) : M ref :=
  cmd ← __create_command self (lit "pulse") None;
  __send_command self cmd;;
  mret self.

Definition off (self : ref) : M ref :=
  cmd ← __create_command self (lit "off") None;
  __send_command self cmd;;
  mret self.

End RemotePin.

(** ** class RemoteServer *)

Module RemoteServer.

(** [RemoteServer(server_ip, server_port)].  The three attributes are
    assigned before [connect] is called, so the object is stored with
    all of them and the connection is attempted last; when [connect]
    raises, the caller gets the exception and no reference. *)
Definition __init__ (server_ip : str) (server_port : Z) : M ref :=
  sock ← socket.socket;
  self ← alloc (RemoteServerObject (Server.mk server_ip server_port sock));
  r ← as_server self;
  socket.connect (Server.client_socket r) (Server.server_ip r) (Server.server_port r);;
  mret self.

(** An omitted [numbering] is [None] and takes the default ['b']. *)
Definition pin (self : ref) (pin_number : Z) (numbering : option str) : M ref :=
  let numbering := default (lit "b") numbering in
  r ← as_server self;
  RemotePin.__init__ (Server.client_socket r) pin_number numbering.

Definition close (self : ref) : M unit :=
  r ← as_server self;
  socket.close (Server.client_socket r).

End RemoteServer.

(** ** The callers' view: actions and chains of actions *)

Inductive action :=
| On (time_ms : option Z)
| Blink
| Pulse
| Off.

(** [handle.on(t)], [handle.on()], [handle.blink()], ... *)
Definition call (a : action) (self : ref) : M ref :=
  match a with
  | On time_ms => RemotePin.on self time_ms
  | Blink => RemotePin.blink self
  | Pulse => RemotePin.pulse self
  | Off => RemotePin.off self
  end.

(** [handle.a1().a2()...]: each call is made on what the previous one
    returned. *)
Fixpoint chain (actions : list action) (self : ref) : M ref :=
  match actions with
  | [] => mret self
  | a :: rest => next ← call a self; chain rest next
  end.

(** ** The documented wire format *)

Definition action_token (a : action) : string :=
  match a with
  | On _ => "on"
  | Blink => "blink"
  | Pulse => "pulse"
  | Off => "off"
  end.

(** The time token: the argument of [on] (0 when omitted), 0 otherwise. *)
Definition action_time (a : action) : Z :=
  match a with
  | On time_ms => default 0%Z time_ms
  | _ => 0%Z
  end.

Fixpoint join (sep : str) (tokens : list str) : str :=
  match tokens with
  | [] => []
  | [t] => t
  | t :: ts => t ++ sep ++ join sep ts
  end.

(** ["<numbering> <pin_number> <action> <time_ms>"]: four tokens, single
    spaces between them, the two integers in decimal. *)
Definition wire_string (numbering : str) (pin_number : Z) (token : string) (time_ms : Z) : str :=
  join (lit " ") [numbering; str_of_int pin_number; lit token; str_of_int time_ms].

(** The same command as bytes, from the bytes of the numbering token. *)
Definition wire_bytes (numbering : bytes) (pin_number : Z) (token : string) (time_ms : Z) : bytes :=
  numbering ++ list_byte_of_string " " ++ list_byte_of_string (decimal pin_number)
    ++ list_byte_of_string " " ++ list_byte_of_string token
    ++ list_byte_of_string " " ++ list_byte_of_string (decimal time_ms).

Definition is_digit (b : byte) : bool :=
  (48 <=? Byte.to_N b) && (Byte.to_N b <=? 57).

(** A handle [self] with attributes [p] whose socket [s] is connected over
    a healthy link. *)
Definition ready (w : world) (self : ref) (p : Pin.obj) (s : Sock.obj) : Prop :=
  heap w !! self = Some (RemotePinObject p) /\
  heap w !! Pin.client_socket p = Some (Socket s) /\
  Sock.state s = Connected /\
  Sock.budget s = None.

(** The world after the socket at [sock] has taken [data]. *)
Definition transmitted (sock : ref) (s : Sock.obj) (data : bytes) (w : world) : world :=
  set_heap (<[sock := Socket (Sock.mk Connected None (Sock.sent s ++ data))]> (heap w)) w.

(** What a caller can tell of a call apart from the reference returned. *)
Definition outcome {A} (rw : result A * world) : option exception * world :=
  (match rw.1 with Value _ => None | Raise x => Some x end, rw.2).

(** A literal all of whose bytes are below 128. *)
Definition ascii_literal (s : string) : bool :=
  forallb (fun b => Byte.to_N b <? 0x80) (list_byte_of_string s).

(** Reading a decimal token back, as the receiving end would ([int(s)]). *)
Definition parse_decimal (s : string) : option Z :=
  Z.of_int <$> NilZero.int_of_string s.

(** Every object of [w] is still there in [w']: a socket may have taken
    more bytes but is in the same state (unconnected, connected or closed),
    any other object is unchanged; and no object was added. *)
Definition same_objects (w w' : world) : Prop :=
  network w' = network w /\
  forall r : ref,
    match heap w !! r with
    | Some (Socket s) =>
        exists s', heap w' !! r = Some (Socket s') /\ Sock.state s' = Sock.state s
    | o => heap w' !! r = o
    end.

(** ** Sample sessions

    The example script of the source, against a network where every
    address has a listener behind a healthy link. *)

Definition open_network : str -> Z -> peer := fun _ _ => Listening None.

Definition empty_world : world := mkWorld ∅ open_network.

(** [remote_server = RemoteServer(server_ip, server_port)] and
    [remote_pin = remote_server.pin(8, 'b')]: the socket is object 0, the
    server object 1 and the handle object 2. *)
Definition session (numbering : str) : M ref :=
  remote_server ← RemoteServer.__init__ (lit "192.168.0.90") 8509;
  RemoteServer.pin remote_server 8 (Some numbering).

Definition session_world (numbering : str) : world := (session numbering empty_world).2.

(** The bytes a sequence of actions on one handle puts on the wire. *)
Definition chain_bytes (numbering : bytes) (pin_number : Z) (actions : list action) : bytes :=
  concat (map (fun a => wire_bytes numbering pin_number (action_token a) (action_time a))
              actions).

(** The session with a second handle for the same pin whose [time_ms]
    attribute a caller has set to 5000 ([remote_pin.time_ms = 5000]). *)
Definition two_handles_world : world :=
  set_heap (<[3%nat := RemotePinObject (Pin.mk 0%nat 8 (lit "b") 5000)]>
              (heap (session_world (lit "b"))))
           (session_world (lit "b")).

(** A network on which every handshake times out. *)
Definition dead_network : str -> Z -> peer := fun _ _ => Unreachable ETIMEDOUT.

(** [remote_server.close()] followed by an action on a handle. *)
Definition close_then (a : action) (remote_server self : ref) : M ref :=
  RemoteServer.close remote_server;;
  call a self.

(** The integers of a command can be formatted: the pin number of the
    handle and the time value of the action have at most
    [int_max_str_digits] digits. *)
Definition formats (p : Pin.obj) (a : action) : bool :=
  int_fits_str (action_time a) && int_fits_str (Pin.pin_number p).

(** The exception of an action on a handle with attributes [p] whose
    socket is closed: the first of the three that applies. *)
Definition closed_socket_error (p : Pin.obj) (a : action) : exception :=
  if formats p a then
    match encode (Pin.numbering p) with
    | Some _ => OSError EBADF
    | None => UnicodeEncodeError
    end
  else ValueError.

(** The smallest integer of 4301 digits. *)
Definition huge : Z := 10 ^ 4300.

(** The session after [remote_server.pin(10 ** 4300)]: the new handle is
    object 3. *)
Definition huge_pin_world : world :=
  set_heap (<[3%nat := RemotePinObject (Pin.mk 0%nat huge (lit "b") 0)]>
              (heap (session_world (lit "b"))))
           (session_world (lit "b")).

(** ** The receiving end and the script of the source *)

(** The character a UTF-8 byte sequence starts with, as a decoder reads
    it: the first byte tells how many continuation bytes follow. *)
Definition utf8_first (bs : bytes) : option codepoint :=
  match map Byte.to_N bs with
  | [] => None
  | b0 :: rest =>
      if b0 <? 0x80 then Some b0
      else if b0 <? 0xE0 then
        match rest with
        | b1 :: _ => Some ((b0 - 0xC0) * 64 + (b1 - 0x80))
        | _ => None
        end
      else if b0 <? 0xF0 then
        match rest with
        | b1 :: b2 :: _ => Some ((b0 - 0xE0) * 4096 + (b1 - 0x80) * 64 + (b2 - 0x80))
        | _ => None
        end
      else
        match rest with
        | b1 :: b2 :: b3 :: _ =>
            Some ((b0 - 0xF0) * 262144 + (b1 - 0x80) * 4096 + (b2 - 0x80) * 64 + (b3 - 0x80))
        | _ => None
        end
  end.

(** The separator of the wire format. *)
Definition space : byte := x20.

(** The script under [if __name__ == "__main__":].  Every action is a
    statement of its own: its return value is dropped and the next one
    is called on [remote_pin] again. *)
Definition main : M unit :=
  let server_ip := lit "192.168.0.90" in
  let server_port := 8509%Z in
  remote_server ← RemoteServer.__init__ server_ip server_port;
  remote_pin ← RemoteServer.pin remote_server 8 (Some (lit "b"));
  RemotePin.on remote_pin (Some 2000%Z);;
  RemotePin.blink remote_pin;;
  RemotePin.on remote_pin None;;
  RemotePin.off remote_pin;;
  RemoteServer.close remote_server.

(** A whole session of a caller: connect, take one handle, run a chain of
    actions on it, close. *)
Definition run_session (server_ip : str) (server_port : Z) (pin_number : Z)
    (numbering : option str) (actions : list action) : M unit :=
  remote_server ← RemoteServer.__init__ server_ip server_port;
  remote_pin ← RemoteServer.pin remote_server pin_number numbering;
  chain actions remote_pin;;
  RemoteServer.close remote_server.

(** The store after the socket at [sock] has been closed. *)
Definition closed (sock : ref) (s : Sock.obj) (w : world) : world :=
  set_heap (<[sock := Socket (Sock.mk Closed (Sock.budget s) (Sock.sent s))]> (heap w)) w.

(** Two connections, and a handle for pin 3 of the second: the sockets
    are objects 0 and 2, the connections 1 and 3, the handle 4. *)
Definition two_connections_world : world :=
  ((RemoteServer.__init__ (lit "192.168.0.90") 8509;;
    second ← RemoteServer.__init__ (lit "192.168.0.91") 8509;
    RemoteServer.pin second 3 (Some (lit "h"))) empty_world).2.

(** One connection with two handles: pin 8 under numbering ['b'] is
    object 2, pin 3 under numbering ['h'] object 3. *)
Definition two_pins_world : world :=
  ((remote_server ← RemoteServer.__init__ (lit "192.168.0.90") 8509;
    RemoteServer.pin remote_server 8 (Some (lit "b"));;
    RemoteServer.pin remote_server 3 (Some (lit "h"))) empty_world).2.

(** ** Strings and their encoding *)

Lemma encode_app (a b : str) :
  encode (a ++ b) =
  match encode a, encode b with
  | Some x, Some y => Some (x ++ y)
  | _, _ => None
  end.
Proof.
  induction a as [|c a IH]; simpl.
  - destruct (encode b); reflexivity.
  - rewrite IH. destruct (utf8_char c) as [x|]; [|reflexivity].
    destruct (encode a) as [xs|]; [|reflexivity].
    destruct (encode b) as [ys|]; [|reflexivity].
    by rewrite app_assoc.
Qed.

Lemma byte_of_to_N (b : byte) : byte_of_N (Byte.to_N b) = b.
Proof. unfold byte_of_N. by rewrite Byte.of_to_N. Qed.

Lemma utf8_char_ascii (c : codepoint) :
  c < 0x80 -> utf8_char c = Some [byte_of_N c].
Proof. intros Hc. unfold utf8_char. by rewrite (proj2 (N.ltb_lt _ _) Hc). Qed.

Lemma encode_ascii_utf8 (s : str) (bs : bytes) :
  encode_ascii s = Some bs -> encode s = Some bs.
Proof.
  unfold encode_ascii. destruct (is_ascii s) eqn:Hs; [|discriminate].
  intros [= <-]. induction s as [|c s IH]; [reflexivity|].
  simpl in Hs. apply andb_prop in Hs as [Hc Hs].
  simpl. rewrite utf8_char_ascii by (by apply N.ltb_lt).
  by rewrite (IH Hs).
Qed.

Lemma is_ascii_lit (s : string) : is_ascii (lit s) = ascii_literal s.
Proof.
  unfold is_ascii, ascii_literal, lit.
  induction (list_byte_of_string s) as [|b l IH]; simpl; [reflexivity|].
  by rewrite IH.
Qed.

Lemma encode_ascii_lit (s : string) :
  ascii_literal s = true -> encode_ascii (lit s) = Some (list_byte_of_string s).
Proof.
  intros Hs. unfold encode_ascii. rewrite is_ascii_lit, Hs. f_equal.
  unfold lit. rewrite map_map. clear Hs.
  induction (list_byte_of_string s) as [|b l IH]; simpl; [reflexivity|].
  by rewrite byte_of_to_N, IH.
Qed.

Lemma encode_lit (s : string) :
  ascii_literal s = true -> encode (lit s) = Some (list_byte_of_string s).
Proof. intros Hs. by apply encode_ascii_utf8, encode_ascii_lit. Qed.

Lemma list_byte_of_string_cons (a : ascii) (s : string) :
  list_byte_of_string (String a s) = byte_of_ascii a :: list_byte_of_string s.
Proof. reflexivity. Qed.

(** The digits of a number are ASCII digits. *)
Lemma digits_are_digits (d : Decimal.uint) :
  forallb is_digit (list_byte_of_string (NilEmpty.string_of_uint d)) = true.
Proof. induction d; simpl; try rewrite list_byte_of_string_cons; simpl; auto. Qed.

(** *** Decimal rendering of integers *)

(** [decimal n] is an optional minus sign followed by a non-empty run of
    digits. *)
Lemma decimal_shape (n : Z) :
  exists d : Decimal.uint,
    d <> Decimal.Nil /\
    decimal n = ((if (n <? 0)%Z then "-" else "") ++ NilEmpty.string_of_uint d)%string.
Proof.
  destruct n as [|p|p]; unfold decimal; simpl.
  - exists (Decimal.D0 Decimal.Nil). by split.
  - exists (Pos.to_uint p). split; [apply Unsigned.to_uint_nonnil|].
    unfold NilZero.string_of_uint. destruct (Pos.to_uint p) eqn:E; try reflexivity.
    by destruct (Unsigned.to_uint_nonnil p).
  - exists (Pos.to_uint p). split; [apply Unsigned.to_uint_nonnil|].
    unfold NilZero.string_of_uint. destruct (Pos.to_uint p) eqn:E; try reflexivity.
    by destruct (Unsigned.to_uint_nonnil p).
Qed.

Lemma is_digit_ascii (b : byte) : is_digit b = true -> (Byte.to_N b <? 0x80) = true.
Proof.
  unfold is_digit. intros [_ H]%andb_prop. apply N.leb_le in H. apply N.ltb_lt. lia.
Qed.

Lemma digits_ascii (d : Decimal.uint) :
  ascii_literal (NilEmpty.string_of_uint d) = true.
Proof.
  unfold ascii_literal. pose proof (digits_are_digits d) as H.
  induction (list_byte_of_string (NilEmpty.string_of_uint d)) as [|b l IH]; [reflexivity|].
  simpl in *. apply andb_prop in H as [Hb Hl].
  by rewrite (is_digit_ascii b Hb), (IH Hl).
Qed.

Lemma decimal_ascii (n : Z) : ascii_literal (decimal n) = true.
Proof.
  destruct (decimal_shape n) as (d & _ & ->).
  destruct (n <? 0)%Z; [|apply digits_ascii].
  change (ascii_literal (String "-" (NilEmpty.string_of_uint d)) = true).
  unfold ascii_literal. rewrite list_byte_of_string_cons.
  apply digits_ascii.
Qed.

Lemma encode_str_of_int (n : Z) :
  encode (str_of_int n) = Some (list_byte_of_string (decimal n)).
Proof. apply encode_lit, decimal_ascii. Qed.

Lemma digits_last (d : Decimal.uint) :
  d <> Decimal.Nil ->
  exists pre b, list_byte_of_string (NilEmpty.string_of_uint d) = pre ++ [b] /\ is_digit b = true.
Proof.
  induction d as [|d IH|d IH|d IH|d IH|d IH|d IH|d IH|d IH|d IH|d IH]; [done|..]; intros _;
    simpl; rewrite list_byte_of_string_cons;
    (destruct d as [|d'|d'|d'|d'|d'|d'|d'|d'|d'|d'] eqn:E;
      [ eexists [], _; split; reflexivity
      | rewrite <- E in *; destruct IH as (pre & b & -> & Hb); [by rewrite E|];
        eexists (_ :: pre), b; split; [reflexivity|exact Hb] ..]).
Qed.

(** The last byte of a decimal token is a digit. *)
Lemma decimal_last (n : Z) :
  exists pre b, list_byte_of_string (decimal n) = pre ++ [b] /\ is_digit b = true.
Proof.
  destruct (decimal_shape n) as (d & Hd & ->).
  destruct (digits_last d Hd) as (pre & b & E & Hb).
  destruct (n <? 0)%Z.
  - change (("-" ++ NilEmpty.string_of_uint d)%string)
      with (String "-" (NilEmpty.string_of_uint d)).
    rewrite list_byte_of_string_cons, E. by eexists (_ :: pre), b.
  - change (("" ++ NilEmpty.string_of_uint d)%string) with (NilEmpty.string_of_uint d).
    rewrite E. by exists pre, b.
Qed.

(** The decimal token reads back as the integer it was made from, whatever
    its sign. *)
Lemma parse_decimal_decimal (n : Z) : parse_decimal (decimal n) = Some n.
Proof.
  unfold parse_decimal, decimal.
  rewrite NilZero.isi.
  - simpl. by rewrite DecimalZ.of_to.
  - destruct n; simpl; [done|..]; intros [= E]; by destruct (Unsigned.to_uint_nonnil p).
  - destruct n; simpl; [done|..]; intros [= E]; by destruct (Unsigned.to_uint_nonnil p).
Qed.

(** *** The digit limit of the conversion *)

Lemma string_length_usize (d : Decimal.uint) :
  N.of_nat (String.length (NilEmpty.string_of_uint d)) = Unsigned.usize d.
Proof.
  induction d; simpl String.length; simpl Unsigned.usize;
    rewrite ?Nat2N.inj_succ, ?IHd; reflexivity.
Qed.

Lemma usize_revapp (d d' : Decimal.uint) :
  Unsigned.usize (Decimal.revapp d d') = Unsigned.usize d + Unsigned.usize d'.
Proof.
  revert d'. induction d; intros d'; simpl; rewrite ?IHd; simpl; lia.
Qed.

Lemma of_lu_bound (d : Decimal.uint) : Unsigned.of_lu d < 10 ^ Unsigned.usize d.
Proof.
  induction d; simpl Unsigned.of_lu; simpl Unsigned.usize;
    rewrite ?N.pow_succ_r'; simpl; lia.
Qed.

(** A positive number is below the power of ten of its digit count. *)
Lemma positive_below_pow_digits (p : positive) :
  Npos p < 10 ^ N.of_nat (digits (Zpos p)).
Proof.
  unfold digits, decimal. simpl Z.abs. simpl Z.to_int. simpl NilZero.string_of_int.
  assert (NilZero.string_of_uint (Pos.to_uint p)
          = NilEmpty.string_of_uint (Pos.to_uint p)) as ->.
  { unfold NilZero.string_of_uint. destruct (Pos.to_uint p) eqn:E; try reflexivity.
    by destruct (Unsigned.to_uint_nonnil p). }
  rewrite string_length_usize, <- (Unsigned.of_to p), Unsigned.of_uint_alt.
  replace (Unsigned.usize (Pos.to_uint p))
    with (Unsigned.usize (Decimal.rev (Pos.to_uint p)));
    [apply of_lu_bound|].
  unfold Decimal.rev. rewrite usize_revapp. simpl. lia.
Qed.

(** An integer of absolute value [10 ^ k] or more has more than [k]
    digits. *)
Lemma digits_above (n : Z) (k : nat) :
  (10 ^ Z.of_nat k <= Z.abs n)%Z -> (k < digits n)%nat.
Proof.
  intros Hn.
  assert (0 < 10 ^ Z.of_nat k)%Z as Hpos by (apply Z.pow_pos_nonneg; lia).
  assert (digits n = digits (Z.abs n)) as -> by (unfold digits; by rewrite Z.abs_idemp).
  destruct (Z.abs n) as [|p|p] eqn:E; try lia.
  pose proof (positive_below_pow_digits p) as Hp.
  destruct (Nat.lt_ge_cases k (digits (Z.pos p))) as [Hlt|Hge]; [exact Hlt|exfalso].
  assert (10 ^ N.of_nat (digits (Z.pos p)) <= 10 ^ N.of_nat k) as Hle
    by (apply N.pow_le_mono_r; lia).
  assert (Z.of_N (N.pos p) < Z.of_N (10 ^ N.of_nat k))%Z as Hz by lia.
  rewrite N2Z.inj_pow, nat_N_Z in Hz. simpl Z.of_N in Hz. lia.
Qed.

Lemma huge_does_not_fit : int_fits_str huge = false.
Proof.
  unfold int_fits_str. apply Nat.leb_gt, digits_above.
  change (Z.of_nat int_max_str_digits) with 4300%Z. unfold huge.
  rewrite Z.abs_eq; [apply Z.le_refl|]. apply Z.pow_nonneg. discriminate.
Qed.

Lemma minus_huge_does_not_fit : int_fits_str (- huge) = false.
Proof.
  unfold int_fits_str. apply Nat.leb_gt, digits_above.
  change (Z.of_nat int_max_str_digits) with 4300%Z. unfold huge.
  rewrite Z.abs_opp, Z.abs_eq; [apply Z.le_refl|]. apply Z.pow_nonneg. discriminate.
Qed.

Lemma on_is_call (time_ms : option Z) (self : ref) :
  RemotePin.on self time_ms = call (On time_ms) self.
Proof. reflexivity. Qed.

Lemma blink_is_call (self : ref) : RemotePin.blink self = call Blink self.
Proof. reflexivity. Qed.

Lemma pulse_is_call (self : ref) : RemotePin.pulse self = call Pulse self.
Proof. reflexivity. Qed.

Lemma off_is_call (self : ref) : RemotePin.off self = call Off self.
Proof. reflexivity. Qed.

Lemma action_time_on (time_ms : Z) : action_time (On (Some time_ms)) = time_ms.
Proof. reflexivity. Qed.

Lemma pin_number_mk (sock : ref) (n : Z) (nb : str) (t : Z) :
  Pin.pin_number (Pin.mk sock n nb t) = n.
Proof. reflexivity. Qed.

Lemma heap_huge_pin_world :
  heap huge_pin_world !! 3%nat = Some (RemotePinObject (Pin.mk 0%nat huge (lit "b") 0)).
Proof. apply lookup_insert_eq. Qed.

Lemma socket_huge_pin_world :
  heap huge_pin_world !! 0%nat = Some (Socket (Sock.mk Connected None [])).
Proof.
  unfold huge_pin_world, set_heap, heap at 1.
  rewrite lookup_insert_ne by discriminate. vm_compute; reflexivity.
Qed.

(** ** The wire string and its bytes *)

(** The f-strings of [__create_command] and [__send_command] build the
    documented wire string. *)
Lemma wire_string_fstrings (numbering : str) (pin_number : Z) (token : string) (time_ms : Z) :
  numbering ++ lit " " ++ str_of_int pin_number ++ lit " "
    ++ (lit token ++ lit " " ++ str_of_int time_ms)
  = wire_string numbering pin_number token time_ms.
Proof. reflexivity. Qed.

Lemma encode_wire_string (numbering : str) (pin_number : Z) (token : string) (time_ms : Z) :
  ascii_literal token = true ->
  encode (wire_string numbering pin_number token time_ms) =
  (fun nb => wire_bytes nb pin_number token time_ms) <$> encode numbering.
Proof.
  intros Htok. rewrite <- wire_string_fstrings. unfold wire_bytes.
  rewrite !encode_app, !encode_str_of_int, (encode_lit token Htok).
  rewrite (encode_lit " ") by reflexivity.
  by destruct (encode numbering).
Qed.

Lemma action_token_ascii (a : action) : ascii_literal (action_token a) = true.
Proof. by destruct a. Qed.

(** ** What the methods do to the store *)

Lemma format_int_unfold (n : Z) (w : world) :
  format_int n w =
  if int_fits_str n then (Value (str_of_int n), w) else (Raise ValueError, w).
Proof. unfold format_int. by destruct (int_fits_str n). Qed.

Lemma send_command_unfold (self : ref) (cmd : str) (w : world) :
  RemotePin.__send_command self cmd w =
  match heap w !! self with
  | Some (RemotePinObject p) =>
      if int_fits_str (Pin.pin_number p) then
        match heap w !! Pin.client_socket p with
        | Some (Socket s) =>
            match encode (Pin.numbering p ++ lit " " ++ str_of_int (Pin.pin_number p)
                            ++ lit " " ++ cmd) with
            | Some data => socket.sendall (Pin.client_socket p) data w
            | None => (Raise UnicodeEncodeError, w)
            end
        | _ => (Raise AttributeError, w)
        end
      else (Raise ValueError, w)
  | _ => (Raise AttributeError, w)
  end.
Proof.
  unfold RemotePin.__send_command, mbind, M_bind, as_pin, as_socket, str_encode.
  destruct (heap w !! self) as [[?|p|?]|]; try reflexivity.
  rewrite format_int_unfold. destruct (int_fits_str (Pin.pin_number p)); [|reflexivity].
  destruct (heap w !! Pin.client_socket p) as [[s|?|?]|]; try reflexivity.
  by destruct (encode _).
Qed.

Lemma call_unfold (a : action) (self : ref) (w : world) :
  call a self w =
  if int_fits_str (action_time a) then
    match RemotePin.__send_command self
            (lit (action_token a) ++ lit " " ++ str_of_int (action_time a)) w with
    | (Value _, w') => (Value self, w')
    | (Raise x, w') => (Raise x, w')
    end
  else (Raise ValueError, w).
Proof.
  destruct a as [[t|]| | |]; simpl;
    unfold RemotePin.on, RemotePin.blink, RemotePin.pulse, RemotePin.off,
      RemotePin.__create_command, mbind, M_bind, mret, M_ret; simpl;
    rewrite ?format_int_unfold;
    try match goal with |- context [int_fits_str ?t] => destruct (int_fits_str t) end;
    reflexivity.
Qed.

Lemma sendall_unfold (sock : ref) (data : bytes) (w : world) (s : Sock.obj) :
  heap w !! sock = Some (Socket s) ->
  socket.sendall sock data w =
  match Sock.state s with
  | Closed => (Raise (OSError EBADF), w)
  | Unconnected => (Raise (OSError EPIPE), w)
  | Connected =>
      match Sock.budget s with
      | None => (Value tt, transmitted sock s data w)
      | Some (n, e) =>
          if (length data <=? n)%nat then
            (Value tt,
             set_heap (<[sock := Socket (Sock.mk Connected (Some ((n - length data)%nat, e))
                                                 (Sock.sent s ++ data))]> (heap w)) w)
          else
            (Raise (OSError e),
             set_heap (<[sock := Socket (Sock.mk Connected (Some (0%nat, EPIPE))
                                                 (Sock.sent s ++ take n data))]> (heap w)) w)
      end
  end.
Proof.
  intros Hs. unfold socket.sendall, mbind, M_bind, as_socket. rewrite Hs.
  destruct (Sock.state s); try reflexivity.
  destruct (Sock.budget s) as [[n e]|]; [|reflexivity].
  by destruct (length data <=? n)%nat.
Qed.

(** An action on a ready handle whose integers can be formatted and
    whose wire string encodes to [data] hands exactly [data] to the
    socket and returns the handle. *)
Lemma call_ready (a : action) (w : world) (self : ref) (p : Pin.obj) (s : Sock.obj) (data : bytes) :
  ready w self p s ->
  formats p a = true ->
  encode (wire_string (Pin.numbering p) (Pin.pin_number p) (action_token a) (action_time a))
    = Some data ->
  call a self w = (Value self, transmitted (Pin.client_socket p) s data w).
Proof.
  intros (Hp & Hs & Hst & Hb) [Ht Hn]%andb_prop Henc.
  rewrite call_unfold, Ht, send_command_unfold, Hp, Hn, Hs, wire_string_fstrings, Henc.
  by rewrite (sendall_unfold _ _ _ s Hs), Hst, Hb.
Qed.

(** An action whose integers cannot be formatted raises from the
    f-string and does nothing else. *)
Lemma call_unformattable (a : action) (w : world) (self : ref) (p : Pin.obj) :
  heap w !! self = Some (RemotePinObject p) ->
  formats p a = false ->
  call a self w = (Raise ValueError, w).
Proof.
  intros Hp Hf. rewrite call_unfold.
  destruct (int_fits_str (action_time a)) eqn:Ht; [|reflexivity].
  unfold formats in Hf. rewrite Ht in Hf. simpl in Hf.
  by rewrite send_command_unfold, Hp, Hf.
Qed.

(** An action on a handle whose socket is closed. *)
Lemma call_closed (a : action) (w : world) (self : ref) (p : Pin.obj) (s : Sock.obj) :
  heap w !! self = Some (RemotePinObject p) ->
  heap w !! Pin.client_socket p = Some (Socket s) ->
  Sock.state s = Closed ->
  call a self w = (Raise (closed_socket_error p a), w).
Proof.
  intros Hp Hs Hst. unfold closed_socket_error.
  destruct (formats p a) eqn:Hf; [|by apply (call_unformattable a w self p)].
  apply andb_prop in Hf as [Ht Hn].
  rewrite call_unfold, Ht, send_command_unfold, Hp, Hn, Hs, wire_string_fstrings.
  rewrite encode_wire_string by apply action_token_ascii.
  destruct (encode (Pin.numbering p)) as [nb|]; simpl; [|reflexivity].
  by rewrite (sendall_unfold _ _ _ s Hs), Hst.
Qed.

(** *** What an action leaves alone *)

Lemma same_objects_refl (w : world) : same_objects w w.
Proof.
  split; [reflexivity|]. intros r.
  destruct (heap w !! r) as [[s|?|?]|]; eauto.
Qed.

Lemma same_objects_trans (w1 w2 w3 : world) :
  same_objects w1 w2 -> same_objects w2 w3 -> same_objects w1 w3.
Proof.
  intros [N12 H12] [N23 H23]. split; [congruence|]. intros r.
  specialize (H12 r). specialize (H23 r).
  destruct (heap w1 !! r) as [[s|p|c]|].
  - destruct H12 as (s2 & E2 & St2). rewrite E2 in H23.
    destruct H23 as (s3 & E3 & St3). exists s3. split; congruence.
  - by rewrite H12 in H23.
  - by rewrite H12 in H23.
  - by rewrite H12 in H23.
Qed.

Lemma same_objects_socket (w : world) (sock : ref) (s s' : Sock.obj) :
  heap w !! sock = Some (Socket s) ->
  Sock.state s' = Sock.state s ->
  same_objects w (set_heap (<[sock := Socket s']> (heap w)) w).
Proof.
  intros Hs Hst. split; [reflexivity|]. intros r. simpl.
  destruct (decide (sock = r)) as [<-|Hne].
  - rewrite Hs, lookup_insert_eq. eauto.
  - rewrite lookup_insert_ne by done.
    destruct (heap w !! r) as [[?|?|?]|]; eauto.
Qed.

Lemma sendall_same_objects (sock : ref) (data : bytes) (w w' : world) (r : result unit) :
  socket.sendall sock data w = (r, w') -> same_objects w w'.
Proof.
  destruct (heap w !! sock) as [[s|?|?]|] eqn:Hs.
  - rewrite (sendall_unfold _ _ _ s Hs).
    destruct (Sock.state s) eqn:Hst; try (intros [= _ <-]; apply same_objects_refl).
    destruct (Sock.budget s) as [[n e]|]; [destruct (length data <=? n)%nat|];
      intros [= _ <-]; by apply (same_objects_socket _ _ s).
  - unfold socket.sendall, mbind, M_bind, as_socket. rewrite Hs.
    intros [= _ <-]; apply same_objects_refl.
  - unfold socket.sendall, mbind, M_bind, as_socket. rewrite Hs.
    intros [= _ <-]; apply same_objects_refl.
  - unfold socket.sendall, mbind, M_bind, as_socket. rewrite Hs.
    intros [= _ <-]; apply same_objects_refl.
Qed.

Lemma send_command_same_objects (self : ref) (cmd : str) (w w' : world) (r : result unit) :
  RemotePin.__send_command self cmd w = (r, w') -> same_objects w w'.
Proof.
  rewrite send_command_unfold.
  destruct (heap w !! self) as [[?|p|?]|];
    try (intros [= _ <-]; apply same_objects_refl).
  destruct (int_fits_str (Pin.pin_number p));
    [|intros [= _ <-]; apply same_objects_refl].
  destruct (heap w !! Pin.client_socket p) as [[s|?|?]|];
    try (intros [= _ <-]; apply same_objects_refl).
  destruct (encode _); [apply sendall_same_objects|].
  intros [= _ <-]; apply same_objects_refl.
Qed.

Lemma call_same_objects (a : action) (self : ref) (w w' : world) (r : result ref) :
  call a self w = (r, w') -> same_objects w w'.
Proof.
  rewrite call_unfold.
  destruct (int_fits_str (action_time a)); [|intros [= _ <-]; apply same_objects_refl].
  destruct (RemotePin.__send_command _ _ w) as [[u|x] w1] eqn:E;
    intros [= _ <-]; by apply send_command_same_objects in E.
Qed.

Lemma call_returns_self (a : action) (self v : ref) (w w' : world) :
  call a self w = (Value v, w') -> v = self.
Proof.
  rewrite call_unfold. destruct (int_fits_str (action_time a)); [|discriminate].
  by destruct (RemotePin.__send_command _ _ w) as [[u|x] w1]; intros [= <- _].
Qed.

Lemma chain_same_objects (actions : list action) (self : ref) (w w' : world) (r : result ref) :
  chain actions self w = (r, w') ->
  same_objects w w' /\ forall v, r = Value v -> v = self.
Proof.
  revert w. induction actions as [|a rest IH]; intros w; simpl.
  - intros [= <- <-]. split; [apply same_objects_refl|]. by intros v [= <-].
  - unfold mbind, M_bind.
    destruct (call a self w) as [[v|x] w1] eqn:E.
    + pose proof (call_returns_self _ _ _ _ _ E) as ->.
      intros [H1 H2]%IH. split; [|done].
      eapply same_objects_trans; [by eapply call_same_objects|done].
    + intros [= <- <-]. split; [by eapply call_same_objects|done].
Qed.

(** A ready handle stays ready after a send. *)
Lemma ready_transmitted (w : world) (self : ref) (p : Pin.obj) (s : Sock.obj) (data : bytes) :
  ready w self p s ->
  ready (transmitted (Pin.client_socket p) s data w) self p
        (Sock.mk Connected None (Sock.sent s ++ data)).
Proof.
  intros (Hp & Hs & Hst & Hb). repeat split; simpl.
  - rewrite lookup_insert_ne; [done|]. intros E. rewrite E in Hs. congruence.
  - by rewrite lookup_insert_eq.
Qed.

Lemma transmitted_twice (w : world) (sock : ref) (s : Sock.obj) (d1 d2 : bytes) :
  transmitted sock (Sock.mk Connected None (Sock.sent s ++ d1)) d2 (transmitted sock s d1 w)
  = transmitted sock s (d1 ++ d2) w.
Proof.
  unfold transmitted, set_heap. simpl.
  by rewrite insert_insert_eq, app_assoc.
Qed.

Lemma transmitted_nothing (w : world) (self : ref) (p : Pin.obj) (s : Sock.obj) :
  ready w self p s -> transmitted (Pin.client_socket p) s [] w = w.
Proof.
  intros (_ & Hs & Hst & Hb). unfold transmitted, set_heap.
  destruct s as [st b snt]; simpl in *; subst. rewrite app_nil_r.
  rewrite insert_id by done. by destruct w.
Qed.

(** A chain of actions on a ready handle: every command is built from the
    numbering and pin number of that one handle. *)
Lemma chain_ready (actions : list action) (w : world) (self : ref) (p : Pin.obj)
    (s : Sock.obj) (nb : bytes) :
  ready w self p s ->
  forallb (formats p) actions = true ->
  encode (Pin.numbering p) = Some nb ->
  chain actions self w =
  (Value self,
   transmitted (Pin.client_socket p) s (chain_bytes nb (Pin.pin_number p) actions) w).
Proof.
  intros Hr Hf Hnb. revert w s Hr.
  induction actions as [|a rest IH]; intros w s Hr; simpl.
  - unfold chain_bytes. simpl. by rewrite (transmitted_nothing _ _ _ _ Hr).
  - simpl in Hf. apply andb_prop in Hf as [Ha Hrest].
    unfold mbind, M_bind.
    rewrite (call_ready a w self p s (wire_bytes nb (Pin.pin_number p) (action_token a)
                                                 (action_time a)) Hr Ha).
    + rewrite (IH Hrest _ _ (ready_transmitted _ _ _ _ _ Hr)).
      by rewrite transmitted_twice.
    + rewrite encode_wire_string by apply action_token_ascii. by rewrite Hnb.
Qed.

Lemma encode_ascii_app (a b : str) :
  encode_ascii (a ++ b) =
  match encode_ascii a, encode_ascii b with
  | Some x, Some y => Some (x ++ y)
  | _, _ => None
  end.
Proof.
  unfold encode_ascii.
  assert (is_ascii (a ++ b) = is_ascii a && is_ascii b) as -> by apply forallb_app.
  rewrite map_app. destruct (is_ascii a), (is_ascii b); reflexivity.
Qed.

Lemma encode_ascii_wire_string (numbering : str) (pin_number : Z) (token : string) (time_ms : Z) :
  ascii_literal token = true ->
  encode_ascii (wire_string numbering pin_number token time_ms) =
  (fun nb => wire_bytes nb pin_number token time_ms) <$> encode_ascii numbering.
Proof.
  intros Htok. rewrite <- wire_string_fstrings. unfold wire_bytes, str_of_int.
  rewrite !encode_ascii_app, !encode_ascii_lit by (done || apply decimal_ascii).
  by destruct (encode_ascii numbering).
Qed.

Lemma wire_bytes_last (nb : bytes) (pin_number : Z) (token : string) (time_ms : Z) :
  exists pre d, wire_bytes nb pin_number token time_ms = pre ++ [d] /\ is_digit d = true.
Proof.
  destruct (decimal_last time_ms) as (pre & d & E & Hd).
  unfold wire_bytes. rewrite E. rewrite !app_assoc.
  eexists _, d. split; [reflexivity|exact Hd].
Qed.

(** ** The wire commands of the four actions *)

(** C1, as amended.  For every numbering string, pin number and integer
    [time_ms] such that the pin number and [time_ms] have at most 4300
    decimal digits and the wire string can be encoded, [on(time_ms)] on a
    handle whose socket is connected over a healthy link sends exactly
    the byte encoding of ["<numbering> <pin_number> on <time_ms>"] (the
    socket takes these bytes and nothing else, and the handle is
    returned); [on()] is [on(0)]. *)
Theorem on_sends_wire_string (w : world) (self : ref) (p : Pin.obj) (s : Sock.obj)
    (time_ms : Z) (data : bytes) :
  ready w self p s ->
  int_fits_str (Pin.pin_number p) = true ->
  int_fits_str time_ms = true ->
  encode (wire_string (Pin.numbering p) (Pin.pin_number p) "on" time_ms) = Some data ->
  RemotePin.on self (Some time_ms) w
    = (Value self, transmitted (Pin.client_socket p) s data w)
  /\ RemotePin.on self None = RemotePin.on self (Some 0%Z).
Proof.
  intros Hr Hn Ht Hdata. split; [|reflexivity].
  apply (call_ready (On (Some time_ms)) w self p s data Hr); [|exact Hdata].
  unfold formats. simpl action_time. by rewrite Ht, Hn.
Qed.

Lemma on_sends_wire_string_witness :
  RemotePin.on 2%nat (Some 2000%Z) (session_world (lit "b"))
    = (Value 2%nat,
       transmitted 0%nat (Sock.mk Connected None []) (list_byte_of_string "b 8 on 2000")
                   (session_world (lit "b")))
  /\ RemotePin.on 2%nat None = RemotePin.on 2%nat (Some 0%Z).
Proof.
  apply (on_sends_wire_string (session_world (lit "b")) 2%nat
           (Pin.mk 0%nat 8 (lit "b") 0) (Sock.mk Connected None []) 2000).
  - repeat split; vm_compute; reflexivity.
  - vm_compute; reflexivity.
  - vm_compute; reflexivity.
  - vm_compute; reflexivity.
Defined.

(** C1, as stated, fails for an integer of more than 4300 digits: on the
    connected handle of the sample session, [on(10 ** 4300)] raises the
    [ValueError] of the f-string and sends nothing. *)
Lemma on_huge_time_counterexample :
  ready (session_world (lit "b")) 2%nat (Pin.mk 0%nat 8 (lit "b") 0)
        (Sock.mk Connected None []) /\
  RemotePin.on 2%nat (Some huge) (session_world (lit "b"))
    = (Raise ValueError, session_world (lit "b")).
Proof.
  split; [repeat split; vm_compute; reflexivity|].
  rewrite on_is_call.
  apply (call_unformattable (On (Some huge)) _ 2%nat (Pin.mk 0%nat 8 (lit "b") 0)).
  - vm_compute; reflexivity.
  - unfold formats. rewrite action_time_on, huge_does_not_fit. reflexivity.
Qed.

(** C2, as amended.  For every numbering string that can be encoded and
    every pin number of at most 4300 decimal digits, [blink()], [pulse()]
    and [off()] on a handle whose socket is connected over a healthy link
    each send exactly the byte encoding of
    ["<numbering> <pin_number> <action> 0"]: the time token is the
    constant 0, and none of the three methods takes a time argument. *)
Theorem blink_pulse_off_send_zero (w : world) (self : ref) (p : Pin.obj) (s : Sock.obj)
    (nb : bytes) :
  ready w self p s ->
  int_fits_str (Pin.pin_number p) = true ->
  encode (Pin.numbering p) = Some nb ->
  (exists data,
     encode (wire_string (Pin.numbering p) (Pin.pin_number p) "blink" 0) = Some data /\
     RemotePin.blink self w = (Value self, transmitted (Pin.client_socket p) s data w)) /\
  (exists data,
     encode (wire_string (Pin.numbering p) (Pin.pin_number p) "pulse" 0) = Some data /\
     RemotePin.pulse self w = (Value self, transmitted (Pin.client_socket p) s data w)) /\
  (exists data,
     encode (wire_string (Pin.numbering p) (Pin.pin_number p) "off" 0) = Some data /\
     RemotePin.off self w = (Value self, transmitted (Pin.client_socket p) s data w)).
Proof.
  intros Hr Hn Hnb.
  assert (forall a, int_fits_str (action_time a) = true -> exists data,
    encode (wire_string (Pin.numbering p) (Pin.pin_number p) (action_token a) (action_time a))
      = Some data /\
    call a self w = (Value self, transmitted (Pin.client_socket p) s data w)) as H.
  { intros a Ha. eexists. split; [|apply call_ready; [exact Hr| |]].
    - rewrite encode_wire_string by apply action_token_ascii. by rewrite Hnb.
    - unfold formats. by rewrite Ha, Hn.
    - rewrite encode_wire_string by apply action_token_ascii. by rewrite Hnb. }
  split; [exact (H Blink eq_refl)|split; [exact (H Pulse eq_refl)|exact (H Off eq_refl)]].
Qed.

Lemma blink_pulse_off_send_zero_witness :
  RemotePin.blink 2%nat (session_world (lit "h"))
    = (Value 2%nat,
       transmitted 0%nat (Sock.mk Connected None []) (list_byte_of_string "h 8 blink 0")
                   (session_world (lit "h")))
  /\ RemotePin.pulse 2%nat (session_world (lit "h"))
    = (Value 2%nat,
       transmitted 0%nat (Sock.mk Connected None []) (list_byte_of_string "h 8 pulse 0")
                   (session_world (lit "h")))
  /\ RemotePin.off 2%nat (session_world (lit "h"))
    = (Value 2%nat,
       transmitted 0%nat (Sock.mk Connected None []) (list_byte_of_string "h 8 off 0")
                   (session_world (lit "h"))).
Proof.
  destruct (blink_pulse_off_send_zero (session_world (lit "h")) 2%nat
              (Pin.mk 0%nat 8 (lit "h") 0) (Sock.mk Connected None [])
              (list_byte_of_string "h"))
    as ((d1 & E1 & H1) & (d2 & E2 & H2) & (d3 & E3 & H3)).
  - repeat split; vm_compute; reflexivity.
  - vm_compute; reflexivity.
  - vm_compute; reflexivity.
  - vm_compute in E1, E2, E3.
    injection E1 as <-. injection E2 as <-. injection E3 as <-.
    repeat split; assumption.
Defined.

(** C2, as stated, fails for a pin number of more than 4300 digits: on
    the handle for pin [10 ** 4300] of the sample session, connected and
    with the numbering ["b"], each of [blink()], [pulse()] and [off()]
    raises the [ValueError] of the f-string and sends nothing. *)
Lemma blink_huge_pin_counterexample :
  ready huge_pin_world 3%nat (Pin.mk 0%nat huge (lit "b") 0) (Sock.mk Connected None []) /\
  RemotePin.blink 3%nat huge_pin_world = (Raise ValueError, huge_pin_world) /\
  RemotePin.pulse 3%nat huge_pin_world = (Raise ValueError, huge_pin_world) /\
  RemotePin.off 3%nat huge_pin_world = (Raise ValueError, huge_pin_world).
Proof.
  assert (heap huge_pin_world !! 3%nat = Some (RemotePinObject (Pin.mk 0%nat huge (lit "b") 0)))
    as Hp by apply heap_huge_pin_world.
  assert (forall a, action_time a = 0%Z ->
            call a 3%nat huge_pin_world = (Raise ValueError, huge_pin_world)) as H.
  { intros a Ha. apply (call_unformattable a _ 3%nat _ Hp).
    unfold formats. rewrite Ha, pin_number_mk, huge_does_not_fit.
    apply andb_false_r. }
  rewrite blink_is_call, pulse_is_call, off_is_call.
  split; [|split; [apply H; reflexivity|split; apply H; reflexivity]].
  split; [exact Hp|]. split; [apply socket_huge_pin_world|split; reflexivity].
Qed.

(** C3, as amended.  For every action on a handle whose socket is
    connected over a healthy link, whose numbering string can be encoded
    and whose pin number and time value have at most 4300 decimal
    digits, the bytes taken by the socket are exactly the UTF-8 encoding
    of the wire string and end with the last decimal digit of the time
    token: no newline, delimiter or terminator follows.  They are the
    ASCII encoding of the wire string whenever the numbering string is
    ASCII. *)
Theorem wire_bytes_utf8_no_terminator (a : action) (w : world) (self : ref) (p : Pin.obj)
    (s : Sock.obj) (nb : bytes) :
  ready w self p s ->
  formats p a = true ->
  encode (Pin.numbering p) = Some nb ->
  let text := wire_string (Pin.numbering p) (Pin.pin_number p) (action_token a) (action_time a) in
  exists data,
    call a self w = (Value self, transmitted (Pin.client_socket p) s data w) /\
    encode text = Some data /\
    (exists pre, data = pre ++ list_byte_of_string (decimal (action_time a))) /\
    (exists pre d, data = pre ++ [d] /\ is_digit d = true) /\
    (is_ascii (Pin.numbering p) = true -> encode_ascii text = Some data).
Proof.
  intros Hr Hf Hnb text.
  assert (encode text = Some (wire_bytes nb (Pin.pin_number p) (action_token a) (action_time a)))
    as Henc.
  { unfold text. rewrite encode_wire_string by apply action_token_ascii. by rewrite Hnb. }
  eexists. split; [by apply call_ready|]. split; [exact Henc|].
  split; [|split].
  - unfold wire_bytes. rewrite !app_assoc. by eexists.
  - apply wire_bytes_last.
  - intros Hascii. unfold text.
    rewrite encode_ascii_wire_string by apply action_token_ascii.
    assert (encode_ascii (Pin.numbering p) = Some (map byte_of_N (Pin.numbering p))) as E
      by (unfold encode_ascii; by rewrite Hascii).
    rewrite E. simpl. apply encode_ascii_utf8 in E. congruence.
Qed.

Lemma wire_bytes_utf8_no_terminator_witness :
  exists data,
    call Off 2%nat (session_world (lit "h"))
      = (Value 2%nat,
         transmitted 0%nat (Sock.mk Connected None []) data (session_world (lit "h"))) /\
    encode (wire_string (lit "h") 8 "off" 0) = Some data /\
    (exists pre, data = pre ++ list_byte_of_string "0") /\
    (exists pre d, data = pre ++ [d] /\ is_digit d = true) /\
    (is_ascii (lit "h") = true -> encode_ascii (wire_string (lit "h") 8 "off" 0) = Some data).
Proof.
  apply (wire_bytes_utf8_no_terminator Off (session_world (lit "h")) 2%nat
           (Pin.mk 0%nat 8 (lit "h") 0) (Sock.mk Connected None [])
           (list_byte_of_string "h")).
  - repeat split; vm_compute; reflexivity.
  - vm_compute; reflexivity.
  - vm_compute; reflexivity.
Defined.

(** C3, as stated, fails for a numbering string outside ASCII: with the
    numbering ["é"] (U+00E9) on pin 8, [blink()] sends the two bytes
    [C3 A9] followed by [" 8 blink 0"], and the wire string has no ASCII
    encoding at all. *)
Lemma ascii_encoding_counterexample :
  ready (session_world [0xE9]) 2%nat (Pin.mk 0%nat 8 [0xE9] 0) (Sock.mk Connected None []) /\
  call Blink 2%nat (session_world [0xE9])
    = (Value 2%nat,
       transmitted 0%nat (Sock.mk Connected None [])
                   ([xc3; xa9] ++ list_byte_of_string " 8 blink 0")
                   (session_world [0xE9])) /\
  encode_ascii (wire_string [0xE9] 8 "blink" 0) = None.
Proof.
  assert (ready (session_world [0xE9]) 2%nat (Pin.mk 0%nat 8 [0xE9] 0)
                (Sock.mk Connected None [])) as Hr
    by (repeat split; vm_compute; reflexivity).
  split; [exact Hr|]. split; [|vm_compute; reflexivity].
  apply (call_ready Blink _ _ _ _ _ Hr); vm_compute; reflexivity.
Qed.

(** C10, as amended.  [on(time_ms)] applies no validation or clamping of
    its own.  On a handle whose socket is connected over a healthy link,
    whose numbering string can be encoded and whose pin number has at
    most 4300 decimal digits: for every integer of at most 4300 decimal
    digits, negative ones included, the bytes sent are the numbering,
    the pin number, [on] and the decimal token of the argument; for
    every integer of more digits the f-string raises [ValueError] and
    nothing is sent.  The decimal token of an integer reads back as that
    integer, and is a minus sign followed by the digits of the absolute
    value when the integer is negative. *)
Theorem on_interpolates_any_integer (w : world) (self : ref) (p : Pin.obj) (s : Sock.obj)
    (nb : bytes) (time_ms : Z) :
  ready w self p s ->
  int_fits_str (Pin.pin_number p) = true ->
  encode (Pin.numbering p) = Some nb ->
  RemotePin.on self (Some time_ms) w
    = (if int_fits_str time_ms then
         (Value self,
          transmitted (Pin.client_socket p) s
            (nb ++ list_byte_of_string " " ++ list_byte_of_string (decimal (Pin.pin_number p))
                ++ list_byte_of_string " on " ++ list_byte_of_string (decimal time_ms)) w)
       else (Raise ValueError, w))
  /\ parse_decimal (decimal time_ms) = Some time_ms
  /\ ((time_ms < 0)%Z -> decimal time_ms = String "-" (decimal (- time_ms))).
Proof.
  intros Hr Hn Hnb. split; [|split].
  - destruct (int_fits_str time_ms) eqn:Ht.
    + apply (call_ready (On (Some time_ms)) w self p s); [exact Hr| |].
      * unfold formats. simpl action_time. by rewrite Ht, Hn.
      * rewrite encode_wire_string by reflexivity. rewrite Hnb. simpl.
        unfold wire_bytes. reflexivity.
    + destruct Hr as (Hp & _).
      apply (call_unformattable (On (Some time_ms)) w self p Hp).
      unfold formats. simpl action_time. by rewrite Ht.
  - apply parse_decimal_decimal.
  - destruct time_ms; [lia|lia|reflexivity].
Qed.

Lemma on_interpolates_any_integer_witness :
  RemotePin.on 2%nat (Some (-5)%Z) (session_world (lit "b"))
    = (Value 2%nat,
       transmitted 0%nat (Sock.mk Connected None []) (list_byte_of_string "b 8 on -5")
                   (session_world (lit "b")))
  /\ parse_decimal "-5" = Some (-5)%Z
  /\ ((-5 < 0)%Z -> decimal (-5) = "-5"%string).
Proof.
  apply (on_interpolates_any_integer (session_world (lit "b")) 2%nat
           (Pin.mk 0%nat 8 (lit "b") 0) (Sock.mk Connected None [])
           (list_byte_of_string "b") (-5)).
  - repeat split; vm_compute; reflexivity.
  - vm_compute; reflexivity.
  - vm_compute; reflexivity.
Defined.

(** C10, as stated, fails for a negative integer of more than 4300
    digits: on the connected handle of the sample session,
    [on(-10 ** 4300)] raises the [ValueError] of the f-string and sends
    nothing, so its decimal representation is not interpolated. *)
Lemma on_negative_huge_counterexample :
  ready (session_world (lit "b")) 2%nat (Pin.mk 0%nat 8 (lit "b") 0)
        (Sock.mk Connected None []) /\
  RemotePin.on 2%nat (Some (- huge)%Z) (session_world (lit "b"))
    = (Raise ValueError, session_world (lit "b")).
Proof.
  split; [repeat split; vm_compute; reflexivity|].
  rewrite on_is_call.
  apply (call_unformattable (On (Some (- huge)%Z)) _ 2%nat (Pin.mk 0%nat 8 (lit "b") 0)).
  - vm_compute; reflexivity.
  - unfold formats. rewrite action_time_on, minus_huge_does_not_fit. reflexivity.
Qed.

(** ** Handles: identity, sharing and the unused [time_ms] attribute *)

Lemma same_objects_pin (w w' : world) (r : ref) (p : Pin.obj) :
  same_objects w w' ->
  heap w !! r = Some (RemotePinObject p) -> heap w' !! r = Some (RemotePinObject p).
Proof. intros [_ H] Hp. specialize (H r). by rewrite Hp in H. Qed.

Lemma same_objects_server (w w' : world) (r : ref) (c : Server.obj) :
  same_objects w w' ->
  heap w !! r = Some (RemoteServerObject c) -> heap w' !! r = Some (RemoteServerObject c).
Proof. intros [_ H] Hc. specialize (H r). by rewrite Hc in H. Qed.

(** C5.  Every action returns the handle it was called on and leaves the
    attributes of the handle as they were; so does any chain of actions.
    On a connected handle whose numbering can be encoded, a chain whose
    integers can all be formatted sends, one after the other, the
    commands of its actions for the one (numbering, pin_number) pair of
    the original handle. *)
Theorem actions_return_same_handle (w : world) (self : ref) (p : Pin.obj) :
  heap w !! self = Some (RemotePinObject p) ->
  (forall a r w',
     call a self w = (r, w') ->
     heap w' !! self = Some (RemotePinObject p) /\ forall v, r = Value v -> v = self) /\
  (forall actions r w',
     chain actions self w = (r, w') ->
     heap w' !! self = Some (RemotePinObject p) /\ forall v, r = Value v -> v = self) /\
  (forall actions s nb,
     ready w self p s ->
     forallb (formats p) actions = true ->
     encode (Pin.numbering p) = Some nb ->
     chain actions self w =
     (Value self,
      transmitted (Pin.client_socket p) s (chain_bytes nb (Pin.pin_number p) actions) w)).
Proof.
  intros Hp. split; [|split].
  - intros a r w' E. split.
    + eapply same_objects_pin; [by eapply call_same_objects|done].
    + intros v ->. by eapply call_returns_self.
  - intros actions r w' E. apply chain_same_objects in E as [Hs Hv].
    split; [by eapply same_objects_pin|done].
  - intros actions s nb Hr Hf Hnb. by apply chain_ready.
Qed.

Lemma actions_return_same_handle_witness :
  (heap (call Blink 2%nat (session_world (lit "b"))).2 !! 2%nat
     = Some (RemotePinObject (Pin.mk 0%nat 8 (lit "b") 0))
   /\ (call Blink 2%nat (session_world (lit "b"))).1 = Value 2%nat)
  /\ chain [On (Some 2000%Z); Blink; On None; Off] 2%nat (session_world (lit "b"))
     = (Value 2%nat,
        transmitted 0%nat (Sock.mk Connected None [])
          (list_byte_of_string "b 8 on 2000b 8 blink 0b 8 on 0b 8 off 0")
          (session_world (lit "b"))).
Proof.
  destruct (actions_return_same_handle (session_world (lit "b")) 2%nat
              (Pin.mk 0%nat 8 (lit "b") 0)) as (H1 & _ & H3).
  - vm_compute; reflexivity.
  - split.
    + destruct (call Blink 2%nat (session_world (lit "b"))) as [r w'] eqn:E.
      destruct (H1 Blink r w' E) as [Hheap Hret]. split; [exact Hheap|].
      simpl. vm_compute in E. by injection E as <- _.
    + apply (H3 [On (Some 2000%Z); Blink; On None; Off] (Sock.mk Connected None [])
                (list_byte_of_string "b")).
      * repeat split; vm_compute; reflexivity.
      * vm_compute; reflexivity.
      * vm_compute; reflexivity.
Defined.

(** An action on a ready handle whose integers can be formatted but whose
    numbering cannot be encoded raises from [encode()] and sends
    nothing. *)
Lemma call_unencodable (a : action) (w : world) (self : ref) (p : Pin.obj) (s : Sock.obj) :
  heap w !! self = Some (RemotePinObject p) ->
  heap w !! Pin.client_socket p = Some (Socket s) ->
  formats p a = true ->
  encode (Pin.numbering p) = None ->
  call a self w = (Raise UnicodeEncodeError, w).
Proof.
  intros Hp Hs [Ht Hn]%andb_prop Henc.
  rewrite call_unfold, Ht, send_command_unfold, Hp, Hn, Hs, wire_string_fstrings.
  rewrite encode_wire_string by apply action_token_ascii. by rewrite Henc.
Qed.

(** C8.  The [time_ms] attribute of a handle is read by no action: two
    handles with the same numbering and pin number, whatever their
    [time_ms] attributes, behave alike under every action.  On the same
    socket the two calls leave the same store and raise the same
    exception if any.  On connected sockets, the same or not, either
    both calls send the same bytes, or both raise the same exception
    and send nothing. *)
Theorem stored_time_ms_is_never_read (a : action) (w : world) (h1 h2 : ref) (p1 p2 : Pin.obj) :
  heap w !! h1 = Some (RemotePinObject p1) ->
  heap w !! h2 = Some (RemotePinObject p2) ->
  Pin.numbering p1 = Pin.numbering p2 ->
  Pin.pin_number p1 = Pin.pin_number p2 ->
  (Pin.client_socket p1 = Pin.client_socket p2 ->
   outcome (call a h1 w) = outcome (call a h2 w)) /\
  (forall s1 s2,
     ready w h1 p1 s1 -> ready w h2 p2 s2 ->
     (exists data,
        call a h1 w = (Value h1, transmitted (Pin.client_socket p1) s1 data w) /\
        call a h2 w = (Value h2, transmitted (Pin.client_socket p2) s2 data w)) \/
     (exists x,
        call a h1 w = (Raise x, w) /\
        call a h2 w = (Raise x, w))).
Proof.
  intros H1 H2 Hn Hp. split.
  - intros Hs. rewrite !call_unfold.
    destruct (int_fits_str (action_time a)); [|reflexivity].
    rewrite !send_command_unfold, H1, H2, <- Hn, <- Hp, <- Hs.
    destruct (int_fits_str (Pin.pin_number p1)); [|reflexivity].
    destruct (heap w !! Pin.client_socket p1) as [[s|?|?]|]; try reflexivity.
    destruct (encode _) as [data|]; [|reflexivity].
    by destruct (socket.sendall _ data w) as [[u|x] w'].
  - intros s1 s2 R1 R2.
    assert (formats p2 a = formats p1 a) as Hf by (unfold formats; by rewrite Hp).
    destruct (formats p1 a) eqn:Hf1.
    + destruct (encode (Pin.numbering p1)) as [nb|] eqn:Hnb.
      * left. exists (wire_bytes nb (Pin.pin_number p1) (action_token a) (action_time a)).
        split; apply call_ready; try done;
          rewrite encode_wire_string by apply action_token_ascii;
          rewrite <- ?Hn, <- ?Hp, Hnb; reflexivity.
      * right. exists UnicodeEncodeError.
        destruct R1 as (_ & Hs1 & _). destruct R2 as (_ & Hs2 & _).
        split; [by apply (call_unencodable a w h1 p1 s1)|].
        apply (call_unencodable a w h2 p2 s2); try done. by rewrite <- Hn.
    + right. exists ValueError.
      split; [by apply (call_unformattable a w h1 p1)|by apply (call_unformattable a w h2 p2)].
Qed.

Lemma stored_time_ms_is_never_read_witness :
  outcome (call (On (Some 100%Z)) 2%nat two_handles_world)
    = outcome (call (On (Some 100%Z)) 3%nat two_handles_world)
  /\ ((exists data,
         call (On (Some 100%Z)) 2%nat two_handles_world
           = (Value 2%nat, transmitted 0%nat (Sock.mk Connected None []) data two_handles_world) /\
         call (On (Some 100%Z)) 3%nat two_handles_world
           = (Value 3%nat, transmitted 0%nat (Sock.mk Connected None []) data two_handles_world))
      \/ (exists x,
            call (On (Some 100%Z)) 2%nat two_handles_world = (Raise x, two_handles_world) /\
            call (On (Some 100%Z)) 3%nat two_handles_world = (Raise x, two_handles_world))).
Proof.
  destruct (stored_time_ms_is_never_read (On (Some 100%Z)) two_handles_world 2%nat 3%nat
              (Pin.mk 0%nat 8 (lit "b") 0) (Pin.mk 0%nat 8 (lit "b") 5000)) as [H1 H2];
    try (vm_compute; reflexivity).
  split; [apply H1; reflexivity|].
  apply (H2 (Sock.mk Connected None []) (Sock.mk Connected None [])).
  - repeat split; vm_compute; reflexivity.
  - repeat split; vm_compute; reflexivity.
Defined.

(** ** The connection: [pin], [close] and the constructor *)

Lemma fresh_unused (w : world) : heap w !! fresh (dom (heap w)) = None.
Proof. apply not_elem_of_dom, is_fresh. Qed.

Lemma pin_unfold (self : ref) (pin_number : Z) (numbering : option str) (w : world)
    (c : Server.obj) :
  heap w !! self = Some (RemoteServerObject c) ->
  RemoteServer.pin self pin_number numbering w =
  (Value (fresh (dom (heap w))),
   set_heap (<[fresh (dom (heap w)) :=
                 RemotePinObject (Pin.mk (Server.client_socket c) pin_number
                                         (default (lit "b") numbering) 0)]> (heap w)) w).
Proof.
  intros Hc. unfold RemoteServer.pin, RemotePin.__init__, mbind, M_bind, as_server, alloc.
  by rewrite Hc.
Qed.

(** [huge_pin_world] is what [remote_server.pin(10 ** 4300, 'b')] makes
    of the sample session: [pin()] accepts the number, as any other. *)
Lemma pin_huge :
  RemoteServer.pin 1%nat huge (Some (lit "b")) (session_world (lit "b"))
    = (Value 3%nat, huge_pin_world).
Proof.
  rewrite (pin_unfold 1%nat huge (Some (lit "b")) (session_world (lit "b"))
             (Server.mk (lit "192.168.0.90") 8509 0%nat)) by (vm_compute; reflexivity).
  match goal with
  | |- (Value ?r, _) = _ => assert (r = 3%nat) as -> by (vm_compute; reflexivity)
  end.
  reflexivity.
Qed.

(** C4.  [pin(pin_number, numbering)] is pure construction.  For every
    connection, every integer and every string it returns a new handle
    (nothing is validated, nothing can fail); the handle holds the
    connection's socket reference, the pin number and the numbering as
    given, the numbering being ["b"] when omitted; every object that
    existed, every socket included, is exactly as it was, so nothing was
    sent, connected or closed. *)
Theorem pin_is_pure_construction (w : world) (self : ref) (c : Server.obj)
    (pin_number : Z) (numbering : option str) :
  heap w !! self = Some (RemoteServerObject c) ->
  exists (h : ref) (w' : world),
    RemoteServer.pin self pin_number numbering w = (Value h, w') /\
    heap w !! h = None /\
    heap w' !! h = Some (RemotePinObject
                           (Pin.mk (Server.client_socket c) pin_number
                                   (match numbering with Some n => n | None => lit "b" end) 0)) /\
    (forall r, r <> h -> heap w' !! r = heap w !! r) /\
    network w' = network w.
Proof.
  intros Hc. eexists _, _. split; [by apply pin_unfold|].
  split; [apply fresh_unused|]. simpl. split; [|split].
  - rewrite lookup_insert_eq. by destruct numbering.
  - intros r Hr. by rewrite lookup_insert_ne.
  - reflexivity.
Qed.

Lemma pin_is_pure_construction_witness :
  exists (h : ref) (w' : world),
    RemoteServer.pin 1%nat (-7) None (session_world (lit "b")) = (Value h, w') /\
    heap (session_world (lit "b")) !! h = None /\
    heap w' !! h = Some (RemotePinObject (Pin.mk 0%nat (-7) (lit "b") 0)) /\
    (forall r, r <> h -> heap w' !! r = heap (session_world (lit "b")) !! r) /\
    network w' = network (session_world (lit "b")).
Proof.
  apply (pin_is_pure_construction (session_world (lit "b")) 1%nat
           (Server.mk (lit "192.168.0.90") 8509 0%nat) (-7) None).
  vm_compute; reflexivity.
Defined.

(** C9.  A handle never closes the shared stream, and all handles of a
    connection share it.  Take a handle from [pin()], run any chain of
    actions on it, then take a second handle from [pin()] on the same
    connection: the chain left every socket in the state it was in and
    the connection object untouched (its socket was neither closed nor
    replaced), and both handles hold the socket reference of the
    connection. *)
Theorem handles_share_the_stream (w : world) (srv : ref) (c : Server.obj)
    (n1 n2 : Z) (nb1 nb2 : option str) (actions : list action) :
  heap w !! srv = Some (RemoteServerObject c) ->
  exists h1 w1,
    RemoteServer.pin srv n1 nb1 w = (Value h1, w1) /\
    forall r w2,
      chain actions h1 w1 = (r, w2) ->
      same_objects w1 w2 /\
      heap w2 !! srv = Some (RemoteServerObject c) /\
      exists h2 w3 p1 p2,
        RemoteServer.pin srv n2 nb2 w2 = (Value h2, w3) /\
        h1 <> h2 /\
        heap w3 !! h1 = Some (RemotePinObject p1) /\
        heap w3 !! h2 = Some (RemotePinObject p2) /\
        Pin.client_socket p1 = Server.client_socket c /\
        Pin.client_socket p2 = Server.client_socket c.
Proof.
  intros Hc. eexists _, _. split; [by apply pin_unfold|].
  set (h1 := fresh (dom (heap w))).
  intros r w2 Hchain. apply chain_same_objects in Hchain as [Hsame _].
  assert (h1 <> srv) as Hne.
  { intros E. pose proof (fresh_unused w) as Hf. fold h1 in Hf. rewrite E in Hf. congruence. }
  assert (heap w2 !! srv = Some (RemoteServerObject c)) as Hc2.
  { eapply same_objects_server; [exact Hsame|]. simpl. by rewrite lookup_insert_ne. }
  assert (heap w2 !! h1 = Some (RemotePinObject
            (Pin.mk (Server.client_socket c) n1 (default (lit "b") nb1) 0))) as Hp1.
  { eapply same_objects_pin; [exact Hsame|]. simpl. by rewrite lookup_insert_eq. }
  split; [exact Hsame|]. split; [exact Hc2|].
  assert (h1 <> fresh (dom (heap w2))) as Hne2.
  { intros E. pose proof (fresh_unused w2) as Hf. rewrite <- E in Hf. congruence. }
  eexists _, _, _, _. split; [by apply pin_unfold|]. split; [exact Hne2|]. simpl.
  split; [by rewrite lookup_insert_ne|].
  split; [by rewrite lookup_insert_eq|]. done.
Qed.

Lemma handles_share_the_stream_witness :
  exists h1 w1,
    RemoteServer.pin 1%nat 3 (Some (lit "h")) (session_world (lit "b")) = (Value h1, w1) /\
    forall r w2,
      chain [Blink; Off] h1 w1 = (r, w2) ->
      same_objects w1 w2 /\
      heap w2 !! 1%nat = Some (RemoteServerObject (Server.mk (lit "192.168.0.90") 8509 0%nat)) /\
      exists h2 w3 p1 p2,
        RemoteServer.pin 1%nat 4 None w2 = (Value h2, w3) /\
        h1 <> h2 /\
        heap w3 !! h1 = Some (RemotePinObject p1) /\
        heap w3 !! h2 = Some (RemotePinObject p2) /\
        Pin.client_socket p1 = 0%nat /\
        Pin.client_socket p2 = 0%nat.
Proof.
  apply (handles_share_the_stream (session_world (lit "b")) 1%nat
           (Server.mk (lit "192.168.0.90") 8509 0%nat) 3 4 (Some (lit "h")) None [Blink; Off]).
  vm_compute; reflexivity.
Defined.

Lemma close_unfold (self : ref) (w : world) (c : Server.obj) (s : Sock.obj) :
  heap w !! self = Some (RemoteServerObject c) ->
  heap w !! Server.client_socket c = Some (Socket s) ->
  RemoteServer.close self w =
  (Value tt,
   set_heap (<[Server.client_socket c := Socket (Sock.mk Closed (Sock.budget s) (Sock.sent s))]>
               (heap w)) w).
Proof.
  intros Hc Hs.
  unfold RemoteServer.close, socket.close, mbind, M_bind, as_server, as_socket, store.
  by rewrite Hc, Hs.
Qed.

(** C7, as amended.  After the connection's [close()], an action on any
    of its handles fails and the exception reaches the caller of the
    action.  It is the first of these that applies: the [ValueError] of
    the f-string when the time value or the pin number has more than
    4300 decimal digits; the [UnicodeEncodeError] of [encode()] when the
    numbering string cannot be encoded; the [OSError] of [sendall] on a
    closed socket (bad file descriptor) otherwise.  Nothing is sent and
    nothing is retried: the store is the one [close()] left. *)
Theorem send_after_close_raises (a : action) (w : world) (srv self : ref)
    (c : Server.obj) (p : Pin.obj) (s : Sock.obj) :
  heap w !! srv = Some (RemoteServerObject c) ->
  heap w !! self = Some (RemotePinObject p) ->
  Pin.client_socket p = Server.client_socket c ->
  heap w !! Server.client_socket c = Some (Socket s) ->
  close_then a srv self w =
  (Raise (if int_fits_str (action_time a) && int_fits_str (Pin.pin_number p) then
            match encode (Pin.numbering p) with
            | Some _ => OSError EBADF
            | None => UnicodeEncodeError
            end
          else ValueError),
   set_heap (<[Server.client_socket c := Socket (Sock.mk Closed (Sock.budget s) (Sock.sent s))]>
               (heap w)) w).
Proof.
  intros Hc Hp Hsock Hs. unfold close_then, mbind, M_bind.
  rewrite (close_unfold _ _ _ _ Hc Hs).
  apply (call_closed a _ self p (Sock.mk Closed (Sock.budget s) (Sock.sent s))).
  - simpl. rewrite lookup_insert_ne; [done|]. intros E. rewrite E in Hs. congruence.
  - simpl. by rewrite Hsock, lookup_insert_eq.
  - reflexivity.
Qed.

Lemma send_after_close_raises_witness :
  close_then (On None) 1%nat 2%nat (session_world (lit "b")) =
  (Raise (OSError EBADF),
   set_heap (<[0%nat := Socket (Sock.mk Closed None [])]> (heap (session_world (lit "b"))))
            (session_world (lit "b"))).
Proof.
  apply (send_after_close_raises (On None) (session_world (lit "b")) 1%nat 2%nat
           (Server.mk (lit "192.168.0.90") 8509 0%nat) (Pin.mk 0%nat 8 (lit "b") 0)
           (Sock.mk Connected None []));
    vm_compute; reflexivity.
Defined.

(** C7, as stated, fails for a handle whose numbering string cannot be
    encoded.  With the numbering made of the lone surrogate U+D800
    ([pin(8, '\ud800')], accepted without validation), [on()] after
    [close()] raises [UnicodeEncodeError], which is no transport error. *)
Lemma send_after_close_counterexample :
  heap (session_world [0xD800]) !! 1%nat
    = Some (RemoteServerObject (Server.mk (lit "192.168.0.90") 8509 0%nat)) /\
  heap (session_world [0xD800]) !! 2%nat
    = Some (RemotePinObject (Pin.mk 0%nat 8 [0xD800] 0)) /\
  (close_then (On None) 1%nat 2%nat (session_world [0xD800])).1 = Raise UnicodeEncodeError.
Proof. repeat split; vm_compute; reflexivity. Qed.

Lemma raise_if_false (x : exception) (w : world) : raise_if false x w = (Value tt, w).
Proof. reflexivity. Qed.

Lemma raise_if_true (x : exception) (w : world) : raise_if true x w = (Raise x, w).
Proof. reflexivity. Qed.

Lemma init_unfold (server_ip : str) (server_port : Z) (w : world) :
  (0 <= server_port <= 65535)%Z ->
  let sock := fresh (dom (heap w)) in
  let h1 := <[sock := Socket (Sock.mk Unconnected None [])]> (heap w) in
  let self := fresh (dom h1) in
  let h2 := <[self := RemoteServerObject (Server.mk server_ip server_port sock)]> h1 in
  sock <> self /\
  RemoteServer.__init__ server_ip server_port w =
  match network w server_ip server_port with
  | Unreachable e => (Raise (OSError e), set_heap h2 w)
  | Listening l =>
      (Value self, set_heap (<[sock := Socket (Sock.mk Connected l [])]> h2) w)
  | BadHostName => (Raise TypeError, set_heap h2 w)
  | UnknownHost => (Raise gaierror, set_heap h2 w)
  end.
Proof.
  intros Hport sock h1 self h2.
  assert (sock <> self) as Hne.
  { intros E. pose proof (is_fresh (dom h1)) as Hf. fold self in Hf. rewrite <- E in Hf.
    apply Hf. unfold h1. rewrite dom_insert_L. by apply elem_of_union_l, elem_of_singleton. }
  split; [exact Hne|].
  unfold RemoteServer.__init__, socket.socket, socket.connect, connect_to, store.
  unfold mbind, M_bind, alloc, as_server, as_socket, mthrow, M_throw. simpl.
  fold sock. fold h1. fold self. fold h2.
  assert (h2 !! self = Some (RemoteServerObject (Server.mk server_ip server_port sock))) as ->
    by apply lookup_insert_eq.
  simpl.
  assert (h2 !! sock = Some (Socket (Sock.mk Unconnected None []))) as ->.
  { unfold h2. rewrite lookup_insert_ne by done. apply lookup_insert_eq. }
  assert (((server_port <? -2147483648) || (2147483647 <? server_port))%Z = false) as ->.
  { destruct Hport. apply orb_false_intro; apply Z.ltb_ge; lia. }
  assert (((server_port <? 0) || (65535 <? server_port))%Z = false) as ->.
  { destruct Hport. apply orb_false_intro; by apply Z.ltb_ge. }
  simpl. by destruct (network w server_ip server_port).
Qed.

(** C6, as amended.  Connecting is part of constructing the connection
    and blocks it.  When the handshake with [host:port] fails with an
    error number, the constructor raises the [OSError] of [connect] for
    that error number, as it is: it is wrapped in nothing (it has no
    [__cause__]), and the caller gets no connection.  When the handshake
    succeeds the caller gets a connection whose socket is connected.
    Objects that existed before are untouched either way. *)
Theorem construction_connects_or_raises (w : world) (server_ip : str) (server_port : Z) :
  (0 <= server_port <= 65535)%Z ->
  (forall e,
     network w server_ip server_port = Unreachable e ->
     exists w',
       RemoteServer.__init__ server_ip server_port w = (Raise (OSError e), w') /\
       exc_cause (OSError e) = None /\
       forall r o, heap w !! r = Some o -> heap w' !! r = Some o) /\
  (forall l,
     network w server_ip server_port = Listening l ->
     exists self sock w',
       RemoteServer.__init__ server_ip server_port w = (Value self, w') /\
       heap w' !! self = Some (RemoteServerObject (Server.mk server_ip server_port sock)) /\
       heap w' !! sock = Some (Socket (Sock.mk Connected l [])) /\
       forall r o, heap w !! r = Some o -> heap w' !! r = Some o).
Proof.
  intros Hport. destruct (init_unfold server_ip server_port w Hport) as [Hne Hinit].
  set (sock := fresh (dom (heap w))) in *.
  set (h1 := <[sock := Socket (Sock.mk Unconnected None [])]> (heap w)) in *.
  set (self := fresh (dom h1)) in *.
  assert (forall r o, heap w !! r = Some o -> r <> sock /\ r <> self) as Hold.
  { intros r o Hr. split; intros ->.
    - pose proof (fresh_unused w) as Hf. fold sock in Hf. congruence.
    - pose proof (is_fresh (dom h1)) as Hf. fold self in Hf. apply Hf.
      unfold h1. rewrite dom_insert_L. apply elem_of_union_r, elem_of_dom. eauto. }
  split.
  - intros e He. rewrite He in Hinit. eexists. split; [exact Hinit|]. split; [reflexivity|].
    intros r o Hr. destruct (Hold r o Hr) as [H1 H2]. simpl.
    rewrite lookup_insert_ne by congruence. unfold h1.
    by rewrite lookup_insert_ne by congruence.
  - intros l Hl. rewrite Hl in Hinit. eexists self, sock, _. split; [exact Hinit|]. simpl.
    split; [|split].
    + rewrite lookup_insert_ne by done. apply lookup_insert_eq.
    + apply lookup_insert_eq.
    + intros r o Hr. destruct (Hold r o Hr) as [H1 H2].
      rewrite !lookup_insert_ne by congruence. unfold h1.
      by rewrite lookup_insert_ne by congruence.
Qed.

Lemma construction_connects_or_raises_witness :
  (exists w',
     RemoteServer.__init__ (lit "203.0.113.1") 9999 (mkWorld ∅ dead_network)
       = (Raise (OSError ETIMEDOUT), w') /\
     exc_cause (OSError ETIMEDOUT) = None /\
     forall r o, (∅ : gmap ref object) !! r = Some o -> heap w' !! r = Some o) /\
  (exists self sock w',
     RemoteServer.__init__ (lit "127.0.0.1") 9000 empty_world = (Value self, w') /\
     heap w' !! self = Some (RemoteServerObject (Server.mk (lit "127.0.0.1") 9000 sock)) /\
     heap w' !! sock = Some (Socket (Sock.mk Connected None [])) /\
     forall r o, (∅ : gmap ref object) !! r = Some o -> heap w' !! r = Some o).
Proof.
  split.
  - apply (construction_connects_or_raises (mkWorld ∅ dead_network) (lit "203.0.113.1") 9999);
      [lia|reflexivity].
  - apply (construction_connects_or_raises empty_world (lit "127.0.0.1") 9000);
      [lia|reflexivity].
Defined.

(** C6, as stated, fails: no [ConnectionError] wrapping the transport
    error is raised.  On a network where the handshake times out,
    [RemoteServer("203.0.113.1", 9999)] raises the [OSError] of the
    timed-out [connect] itself; that exception has no [__cause__] and is
    no instance of [ConnectionError]. *)
Lemma wrapped_ConnectionError_counterexample :
  (RemoteServer.__init__ (lit "203.0.113.1") 9999 (mkWorld ∅ dead_network)).1
    = Raise (OSError ETIMEDOUT) /\
  exc_cause (OSError ETIMEDOUT) = None /\
  is_ConnectionError (OSError ETIMEDOUT) = false.
Proof. repeat split; vm_compute; reflexivity. Qed.

(** ** The bytes on the wire determine the command *)

Lemma to_N_byte_of_N (n : N) : n < 256 -> Byte.to_N (byte_of_N n) = n.
Proof.
  intros Hn. unfold byte_of_N. destruct (Byte.of_N n) as [b|] eqn:E.
  - by apply Byte.to_of_N.
  - apply Byte.of_N_None_iff in E. lia.
Qed.

Lemma lor_add_low (k a x : N) : x < 2 ^ k -> N.lor (a * 2 ^ k) x = a * 2 ^ k + x.
Proof.
  intros Hx. rewrite N.add_nocarry_lxor, N.lxor_lor; try reflexivity;
    apply N.bits_inj; intros i; rewrite N.land_spec, N.bits_0;
    destruct (N.lt_ge_cases i k) as [Hi|Hi].
  - by rewrite N.mul_pow2_bits_low.
  - rewrite <- (N.mod_small x (2 ^ k)) by done.
    rewrite N.mod_pow2_bits_high by done. apply andb_false_r.
  - by rewrite N.mul_pow2_bits_low.
  - rewrite <- (N.mod_small x (2 ^ k)) by done.
    rewrite N.mod_pow2_bits_high by done. apply andb_false_r.
Qed.

Lemma continuation_value (c : N) : Byte.to_N (continuation c) = 0x80 + c mod 64.
Proof.
  unfold continuation.
  change 0x3F with (N.ones 6). rewrite N.land_ones.
  change 0x80 with (2 * 2 ^ 6) at 1. rewrite lor_add_low by (apply N.mod_lt; done).
  change (2 ^ 6) with 64. rewrite to_N_byte_of_N; [lia|].
  pose proof (N.mod_lt c 64). lia.
Qed.

Lemma lead2_value (x : N) : x < 32 -> Byte.to_N (byte_of_N (N.lor 0xC0 x)) = 192 + x.
Proof.
  intros Hx. change 0xC0 with (6 * 2 ^ 5). rewrite lor_add_low by done.
  change (6 * 2 ^ 5) with 192. apply to_N_byte_of_N. lia.
Qed.

Lemma lead3_value (x : N) : x < 16 -> Byte.to_N (byte_of_N (N.lor 0xE0 x)) = 224 + x.
Proof.
  intros Hx. change 0xE0 with (14 * 2 ^ 4). rewrite lor_add_low by done.
  change (14 * 2 ^ 4) with 224. apply to_N_byte_of_N. lia.
Qed.

Lemma lead4_value (x : N) : x < 8 -> Byte.to_N (byte_of_N (N.lor 0xF0 x)) = 240 + x.
Proof.
  intros Hx. change 0xF0 with (30 * 2 ^ 3). rewrite lor_add_low by done.
  change (30 * 2 ^ 3) with 240. apply to_N_byte_of_N. lia.
Qed.

Lemma div_mod_64 (c : N) : c = 64 * (c / 64) + c mod 64 /\ c mod 64 < 64.
Proof. split; [by apply N.div_mod|by apply N.mod_lt]. Qed.

(** Decoding the first character of an encoded string gives back the
    character that was encoded. *)
Lemma utf8_first_char (c : codepoint) (b rest : bytes) :
  utf8_char c = Some b -> utf8_first (b ++ rest) = Some c.
Proof.
  unfold codepoint in c. unfold utf8_char.
  destruct (c <? 0x80) eqn:H1; [|destruct (c <? 0x800) eqn:H2;
    [|destruct (c <? 0x10000) eqn:H3; [destruct (is_surrogate c)|
      destruct (c <? 0x110000) eqn:H4]]]; try discriminate; intros [= <-];
    repeat match goal with
           | H : (_ <? _) = true |- _ => apply N.ltb_lt in H
           | H : (_ <? _) = false |- _ => apply N.ltb_ge in H
           end;
    unfold utf8_first; simpl map; rewrite ?continuation_value, ?N.shiftr_div_pow2.
  - rewrite to_N_byte_of_N by lia. by rewrite (proj2 (N.ltb_lt _ _) H1).
  - change (2 ^ 6) with 64.
    destruct (div_mod_64 c) as [E R].
    set (q := c / 64) in *. set (r := c mod 64) in *. clearbody q r.
    rewrite lead2_value by lia.
    destruct (192 + q <? 128) eqn:E1; [apply N.ltb_lt in E1; lia|].
    destruct (192 + q <? 224) eqn:E2; [|apply N.ltb_ge in E2; lia].
    f_equal. lia.
  - change (2 ^ 6) with 64.
    change (2 ^ 12) with (64 * 64). rewrite <- N.Div0.div_div.
    destruct (div_mod_64 c) as [E R]. destruct (div_mod_64 (c / 64)) as [E' R'].
    set (q := c / 64) in *. set (r := c mod 64) in *.
    set (q' := q / 64) in *. set (r' := q mod 64) in *. clearbody q r q' r'.
    rewrite lead3_value by lia.
    destruct (224 + q' <? 128) eqn:E1; [apply N.ltb_lt in E1; lia|].
    destruct (224 + q' <? 224) eqn:E2; [apply N.ltb_lt in E2; lia|].
    destruct (224 + q' <? 240) eqn:E3; [|apply N.ltb_ge in E3; lia].
    f_equal. lia.
  - change (2 ^ 6) with 64.
    change (2 ^ 12) with (64 * 64). change (2 ^ 18) with (64 * 64 * 64).
    rewrite <- !N.Div0.div_div.
    destruct (div_mod_64 c) as [E R]. destruct (div_mod_64 (c / 64)) as [E' R'].
    destruct (div_mod_64 (c / 64 / 64)) as [E'' R''].
    set (q := c / 64) in *. set (r := c mod 64) in *.
    set (q' := q / 64) in *. set (r' := q mod 64) in *.
    set (q'' := q' / 64) in *. set (r'' := q' mod 64) in *.
    clearbody q r q' r' q'' r''.
    rewrite lead4_value by lia.
    destruct (240 + q'' <? 128) eqn:E1; [apply N.ltb_lt in E1; lia|].
    destruct (240 + q'' <? 224) eqn:E2; [apply N.ltb_lt in E2; lia|].
    destruct (240 + q'' <? 240) eqn:E3; [apply N.ltb_lt in E3; lia|].
    f_equal. lia.
Qed.

Lemma utf8_char_inj (c1 c2 : codepoint) (b1 b2 r1 r2 : bytes) :
  utf8_char c1 = Some b1 -> utf8_char c2 = Some b2 ->
  b1 ++ r1 = b2 ++ r2 -> c1 = c2 /\ r1 = r2.
Proof.
  intros H1 H2 E.
  pose proof (utf8_first_char c1 b1 r1 H1) as F1.
  pose proof (utf8_first_char c2 b2 r2 H2) as F2.
  rewrite E in F1. assert (c1 = c2) as -> by congruence.
  split; [reflexivity|]. rewrite H1 in H2. injection H2 as ->.
  by apply app_inv_head in E.
Qed.

Lemma utf8_char_nonempty (c : codepoint) (b : bytes) : utf8_char c = Some b -> b <> [].
Proof.
  intros H ->. pose proof (utf8_first_char c [] [] H) as F. discriminate.
Qed.

(** [encode] is injective: no two strings have the same bytes. *)
Lemma encode_inj (s1 s2 : str) (bs : bytes) :
  encode s1 = Some bs -> encode s2 = Some bs -> s1 = s2.
Proof.
  revert s2 bs. induction s1 as [|c1 s1 IH]; intros [|c2 s2] bs; simpl; try done.
  - intros [= <-]. destruct (utf8_char c2) as [b|] eqn:Hc; [|discriminate].
    destruct (encode s2); [|discriminate]. intros [= E].
    destruct b; [by apply utf8_char_nonempty in Hc|discriminate].
  - destruct (utf8_char c1) as [b|] eqn:Hc; [|discriminate].
    destruct (encode s1); [|discriminate]. intros [= <-] [= E].
    destruct b; [by apply utf8_char_nonempty in Hc|discriminate].
  - destruct (utf8_char c1) as [b1|] eqn:Hc1; [|discriminate].
    destruct (encode s1) as [bs1|] eqn:Hs1; [|discriminate].
    destruct (utf8_char c2) as [b2|] eqn:Hc2; [|discriminate].
    destruct (encode s2) as [bs2|] eqn:Hs2; [|discriminate].
    intros [= <-] [= E].
    destruct (utf8_char_inj c2 c1 b2 b1 bs2 bs1 Hc2 Hc1 E) as [-> ->].
    f_equal. by apply (IH s2 bs1).
Qed.

(** *** Cutting the command at its separators, from the right *)

Lemma cut_left (sp : byte) (a1 a2 b1 b2 : bytes) :
  sp ∉ a1 -> sp ∉ a2 -> a1 ++ sp :: b1 = a2 ++ sp :: b2 -> a1 = a2 /\ b1 = b2.
Proof.
  revert a2. induction a1 as [|x a1 IH]; intros [|y a2] H1 H2; simpl.
  - by intros [= ->].
  - intros [= -> _]. destruct H2. apply elem_of_cons. by left.
  - intros [= -> _]. destruct H1. apply elem_of_cons. by left.
  - intros [= -> E]. destruct (IH a2) as [-> ->]; try done.
    + intros Hin. apply H1, elem_of_cons. by right.
    + intros Hin. apply H2, elem_of_cons. by right.
Qed.

Lemma cut_right (sp : byte) (a1 a2 b1 b2 : bytes) :
  sp ∉ b1 -> sp ∉ b2 -> a1 ++ sp :: b1 = a2 ++ sp :: b2 -> a1 = a2 /\ b1 = b2.
Proof.
  intros H1 H2 E. apply (f_equal reverse) in E.
  rewrite !reverse_app, !reverse_cons, <- !app_assoc in E. simpl in E.
  apply cut_left in E as [Eb Ea]; try (by rewrite elem_of_reverse).
  split; [by apply (inj reverse)|by apply (inj reverse)].
Qed.

Lemma digits_no_space (d : Decimal.uint) :
  space ∉ list_byte_of_string (NilEmpty.string_of_uint d).
Proof.
  pose proof (digits_are_digits d) as H. intros Hin.
  induction (list_byte_of_string (NilEmpty.string_of_uint d)) as [|b l IH]; [by inversion Hin|].
  simpl in H. apply andb_prop in H as [Hb Hl].
  apply elem_of_cons in Hin as [<-|Hin]; [discriminate|by apply IH].
Qed.

Lemma decimal_no_space (n : Z) : space ∉ list_byte_of_string (decimal n).
Proof.
  destruct (decimal_shape n) as (d & _ & ->).
  destruct (n <? 0)%Z.
  - change (("-" ++ NilEmpty.string_of_uint d)%string)
      with (String "-" (NilEmpty.string_of_uint d)).
    rewrite list_byte_of_string_cons. intros [E|Hin]%elem_of_cons; [discriminate|].
    by apply digits_no_space in Hin.
  - apply digits_no_space.
Qed.

Lemma action_token_no_space (a : action) : space ∉ list_byte_of_string (action_token a).
Proof.
  destruct a; intros Hin; vm_compute in Hin;
    repeat (apply elem_of_cons in Hin as [Hin|Hin]; [discriminate|]); by inversion Hin.
Qed.

Lemma decimal_inj (n m : Z) : decimal n = decimal m -> n = m.
Proof.
  intros E. pose proof (parse_decimal_decimal n) as Hn.
  rewrite E, parse_decimal_decimal in Hn. congruence.
Qed.

Lemma list_byte_of_string_inj (s t : string) :
  list_byte_of_string s = list_byte_of_string t -> s = t.
Proof.
  intros E. rewrite <- (string_of_list_byte_of_string s), E.
  apply string_of_list_byte_of_string.
Qed.

(** Two commands with the same bytes have the same four tokens. *)
Lemma wire_bytes_inj (nb1 nb2 : bytes) (p1 p2 : Z) (a1 a2 : action) :
  wire_bytes nb1 p1 (action_token a1) (action_time a1)
    = wire_bytes nb2 p2 (action_token a2) (action_time a2) ->
  nb1 = nb2 /\ p1 = p2 /\ action_token a1 = action_token a2 /\ action_time a1 = action_time a2.
Proof.
  unfold wire_bytes. change (list_byte_of_string " ") with [space]. intros E.
  rewrite !(app_assoc nb1), !(app_assoc nb2) in E.
  repeat rewrite (app_assoc _ _ ([space] ++ _)) in E.
  simpl in E.
  apply cut_right in E as [E Et]; try apply decimal_no_space.
  apply cut_right in E as [E Ea]; try apply action_token_no_space.
  rewrite <- !app_assoc in E. simpl in E.
  apply cut_right in E as [E Ep]; try apply decimal_no_space.
  split; [exact E|]. split; [|split].
  - by apply decimal_inj, list_byte_of_string_inj.
  - by apply list_byte_of_string_inj.
  - by apply decimal_inj, list_byte_of_string_inj.
Qed.

Lemma transmitted_inj (sock : ref) (s : Sock.obj) (d1 d2 : bytes) (w : world) :
  transmitted sock s d1 w = transmitted sock s d2 w -> d1 = d2.
Proof.
  intros E. apply (f_equal (fun w => heap w !! sock)) in E. simpl in E.
  rewrite !lookup_insert_eq in E. injection E as E. by apply app_inv_head in E.
Qed.

(** X1.  The bytes a command puts on the wire determine the command.  If
    two actions, on connected handles of any two sessions, hand the
    socket the same bytes, then the handles have the same numbering
    string and pin number, and the actions the same name and time
    value: splitting at the last three spaces recovers the four tokens,
    even when the numbering string itself holds spaces. *)
Theorem same_bytes_same_command (a1 a2 : action) (w1 w2 : world) (h1 h2 : ref)
    (p1 p2 : Pin.obj) (s1 s2 : Sock.obj) (data : bytes) :
  ready w1 h1 p1 s1 ->
  ready w2 h2 p2 s2 ->
  call a1 h1 w1 = (Value h1, transmitted (Pin.client_socket p1) s1 data w1) ->
  call a2 h2 w2 = (Value h2, transmitted (Pin.client_socket p2) s2 data w2) ->
  Pin.numbering p1 = Pin.numbering p2 /\
  Pin.pin_number p1 = Pin.pin_number p2 /\
  action_token a1 = action_token a2 /\
  action_time a1 = action_time a2.
Proof.
  intros R1 R2 C1 C2.
  assert (forall a w h p s,
            ready w h p s ->
            call a h w = (Value h, transmitted (Pin.client_socket p) s data w) ->
            exists nb, encode (Pin.numbering p) = Some nb /\
                       data = wire_bytes nb (Pin.pin_number p) (action_token a) (action_time a))
    as Hdata.
  { intros a w h p s R C. pose proof R as (Hp & Hs & _).
    destruct (formats p a) eqn:Hf;
      [|rewrite (call_unformattable a w h p Hp Hf) in C; discriminate].
    destruct (encode (Pin.numbering p)) as [nb|] eqn:Hnb;
      [|rewrite (call_unencodable a w h p s Hp Hs Hf Hnb) in C; discriminate].
    exists nb. split; [reflexivity|].
    rewrite (call_ready a w h p s
               (wire_bytes nb (Pin.pin_number p) (action_token a) (action_time a)) R Hf) in C.
    - symmetry. apply (transmitted_inj (Pin.client_socket p) s _ _ w). congruence.
    - rewrite encode_wire_string by apply action_token_ascii. by rewrite Hnb. }
  destruct (Hdata a1 w1 h1 p1 s1 R1 C1) as (nb1 & E1 & D1).
  destruct (Hdata a2 w2 h2 p2 s2 R2 C2) as (nb2 & E2 & D2).
  rewrite D1 in D2. apply wire_bytes_inj in D2 as (<- & Hp & Ha & Ht).
  split; [by apply (encode_inj _ _ nb1)|done].
Qed.

Lemma same_bytes_same_command_witness :
  Pin.numbering (Pin.mk 0%nat 8 (lit "b") 0)
    = Pin.numbering (Pin.mk 0%nat 8 (lit "b") 5000) /\
  Pin.pin_number (Pin.mk 0%nat 8 (lit "b") 0)
    = Pin.pin_number (Pin.mk 0%nat 8 (lit "b") 5000) /\
  action_token (On None) = action_token (On (Some 0%Z)) /\
  action_time (On None) = action_time (On (Some 0%Z)).
Proof.
  apply (same_bytes_same_command (On None) (On (Some 0%Z))
           (session_world (lit "b")) two_handles_world 2%nat 3%nat
           (Pin.mk 0%nat 8 (lit "b") 0) (Pin.mk 0%nat 8 (lit "b") 5000)
           (Sock.mk Connected None []) (Sock.mk Connected None [])
           (list_byte_of_string "b 8 on 0")).
  - repeat split; vm_compute; reflexivity.
  - repeat split; vm_compute; reflexivity.
  - vm_compute; reflexivity.
  - vm_compute; reflexivity.
Defined.

(** ** What an action can and cannot change *)

(** X2.  An action writes to the handle's own socket and to nothing
    else.  Whether it returns or raises, every other object of the store
    is identical afterwards, the socket is in the state it was in, and
    the bytes it had taken are still there, followed by a (possibly
    empty) prefix of the encoded command: the whole command when the
    call returns, nothing when the socket is closed or the command
    cannot be encoded. *)
Theorem action_writes_only_to_its_socket (a : action) (w w' : world) (self : ref)
    (p : Pin.obj) (r : result ref) :
  heap w !! self = Some (RemotePinObject p) ->
  call a self w = (r, w') ->
  network w' = network w /\
  (forall k, k <> Pin.client_socket p -> heap w' !! k = heap w !! k) /\
  match heap w !! Pin.client_socket p with
  | Some (Socket s) =>
      exists s' extra,
        heap w' !! Pin.client_socket p = Some (Socket s') /\
        Sock.state s' = Sock.state s /\
        Sock.sent s' = Sock.sent s ++ extra /\
        match encode (wire_string (Pin.numbering p) (Pin.pin_number p)
                                  (action_token a) (action_time a)) with
        | Some data =>
            extra `prefix_of` data /\
            (forall v, r = Value v -> extra = data) /\
            (Sock.state s = Closed -> extra = [])
        | None => extra = []
        end
  | o => heap w' !! Pin.client_socket p = o
  end.
Proof.
  intros Hp. rewrite call_unfold, send_command_unfold, Hp, wire_string_fstrings.
  assert (forall s, Sock.sent s = Sock.sent s ++ []) as Hnil
    by (intros s; by rewrite app_nil_r).
  destruct (heap w !! Pin.client_socket p) as [[s|?|?]|] eqn:Hs;
    try (destruct (int_fits_str (action_time a)), (int_fits_str (Pin.pin_number p));
         intros [= <- <-]; by rewrite ?Hs).
  destruct (encode _) as [data|] eqn:Henc.
  - destruct (int_fits_str (action_time a)), (int_fits_str (Pin.pin_number p));
      try (intros [= <- <-]; rewrite Hs; split; [done|]; split; [done|];
           exists s, []; repeat split; try done; apply prefix_nil).
    rewrite (sendall_unfold _ _ _ s Hs).
    destruct (Sock.state s) eqn:Hst;
      try (intros [= <- <-]; rewrite Hs; split; [done|]; split; [done|];
           exists s, []; repeat split; try done; apply prefix_nil).
    destruct (Sock.budget s) as [[n e]|] eqn:Hb.
    + destruct (length data <=? n)%nat.
      * intros [= <- <-]. split; [done|]. split.
        { intros k Hk. simpl. by rewrite lookup_insert_ne. }
        simpl. rewrite lookup_insert_eq. eexists _, data.
        repeat split; try done.
      * intros [= <- <-]. split; [done|]. split.
        { intros k Hk. simpl. by rewrite lookup_insert_ne. }
        simpl. rewrite lookup_insert_eq. eexists _, (take n data).
        repeat split; try done. apply prefix_take.
    + intros [= <- <-]. split; [done|]. split.
      { intros k Hk. simpl. by rewrite lookup_insert_ne. }
      simpl. rewrite lookup_insert_eq. eexists _, data.
      repeat split; try done.
  - destruct (int_fits_str (action_time a)), (int_fits_str (Pin.pin_number p));
      (intros [= <- <-]; rewrite Hs; split; [done|]; split; [done|];
       exists s, []; by repeat split).
Qed.

Lemma action_writes_only_to_its_socket_witness :
  network (call Blink 2%nat (session_world (lit "b"))).2 = network (session_world (lit "b")) /\
  forall k, k <> 0%nat ->
    heap (call Blink 2%nat (session_world (lit "b"))).2 !! k
      = heap (session_world (lit "b")) !! k.
Proof.
  destruct (action_writes_only_to_its_socket Blink (session_world (lit "b"))
              (call Blink 2%nat (session_world (lit "b"))).2 2%nat
              (Pin.mk 0%nat 8 (lit "b") 0)
              (call Blink 2%nat (session_world (lit "b"))).1) as (H1 & H2 & _).
  - vm_compute; reflexivity.
  - by destruct (call Blink 2%nat (session_world (lit "b"))).
  - split; [exact H1|exact H2].
Defined.

(** ** Closing a connection *)

Lemma server_is_no_socket (w : world) (srv : ref) (c : Server.obj) (k : ref) (s : Sock.obj) :
  heap w !! srv = Some (RemoteServerObject c) -> heap w !! k = Some (Socket s) -> k <> srv.
Proof. intros Hc Hs ->. congruence. Qed.

Lemma pin_is_no_socket (w : world) (h : ref) (p : Pin.obj) (k : ref) (s : Sock.obj) :
  heap w !! h = Some (RemotePinObject p) -> heap w !! k = Some (Socket s) -> k <> h.
Proof. intros Hp Hs ->. congruence. Qed.

(** X3.  [close()] may be called again: the second call returns normally
    and changes nothing more.  After either, the socket is closed, the
    bytes it had taken are kept, and every other object is as before. *)
Theorem close_twice_is_close (w : world) (srv : ref) (c : Server.obj) (s : Sock.obj) :
  heap w !! srv = Some (RemoteServerObject c) ->
  heap w !! Server.client_socket c = Some (Socket s) ->
  RemoteServer.close srv w = (Value tt, closed (Server.client_socket c) s w) /\
  (RemoteServer.close srv;; RemoteServer.close srv) w
    = (Value tt, closed (Server.client_socket c) s w) /\
  heap (closed (Server.client_socket c) s w) !! Server.client_socket c
    = Some (Socket (Sock.mk Closed (Sock.budget s) (Sock.sent s))) /\
  forall k, k <> Server.client_socket c ->
    heap (closed (Server.client_socket c) s w) !! k = heap w !! k.
Proof.
  intros Hc Hs.
  pose proof (server_is_no_socket _ _ _ _ _ Hc Hs) as Hne.
  split; [by apply close_unfold|]. split; [|split].
  - unfold mbind, M_bind. rewrite (close_unfold _ _ _ _ Hc Hs).
    rewrite (close_unfold _ _ c (Sock.mk Closed (Sock.budget s) (Sock.sent s))).
    + unfold closed, set_heap. simpl. by rewrite insert_insert_eq.
    + simpl. by rewrite lookup_insert_ne.
    + simpl. by rewrite lookup_insert_eq.
  - simpl. by rewrite lookup_insert_eq.
  - intros k Hk. simpl. by rewrite lookup_insert_ne.
Qed.

Lemma close_twice_is_close_witness :
  RemoteServer.close 1%nat (session_world (lit "b"))
    = (Value tt, closed 0%nat (Sock.mk Connected None []) (session_world (lit "b"))) /\
  (RemoteServer.close 1%nat;; RemoteServer.close 1%nat) (session_world (lit "b"))
    = (Value tt, closed 0%nat (Sock.mk Connected None []) (session_world (lit "b"))) /\
  heap (closed 0%nat (Sock.mk Connected None []) (session_world (lit "b"))) !! 0%nat
    = Some (Socket (Sock.mk Closed None [])) /\
  forall k, k <> 0%nat ->
    heap (closed 0%nat (Sock.mk Connected None []) (session_world (lit "b"))) !! k
      = heap (session_world (lit "b")) !! k.
Proof.
  apply (close_twice_is_close (session_world (lit "b")) 1%nat
           (Server.mk (lit "192.168.0.90") 8509 0%nat) (Sock.mk Connected None []));
    vm_compute; reflexivity.
Defined.

(** X4.  [close()] closes the socket of its own connection only.  After
    it, an action on a handle of another connection (one whose socket is
    connected over a healthy link, whose pin number and time value have
    at most 4300 digits and whose wire string can be encoded) still
    sends its command and returns the handle. *)
Theorem close_leaves_other_connections (a : action) (w : world) (srv self : ref)
    (c : Server.obj) (sc : Sock.obj) (p : Pin.obj) (s : Sock.obj) (data : bytes) :
  heap w !! srv = Some (RemoteServerObject c) ->
  heap w !! Server.client_socket c = Some (Socket sc) ->
  ready w self p s ->
  Pin.client_socket p <> Server.client_socket c ->
  formats p a = true ->
  encode (wire_string (Pin.numbering p) (Pin.pin_number p) (action_token a) (action_time a))
    = Some data ->
  (RemoteServer.close srv;; call a self) w
    = (Value self,
       transmitted (Pin.client_socket p) s data (closed (Server.client_socket c) sc w)).
Proof.
  intros Hc Hsc (Hp & Hs & Hst & Hb) Hne Hf Henc.
  unfold mbind, M_bind. rewrite (close_unfold _ _ _ _ Hc Hsc).
  apply call_ready; [|exact Hf|exact Henc].
  repeat split; simpl; try done.
  - rewrite lookup_insert_ne; [done|]. by apply (pin_is_no_socket w _ p _ sc).
  - by rewrite lookup_insert_ne.
Qed.

Lemma close_leaves_other_connections_witness :
  (RemoteServer.close 1%nat;; call Off 4%nat) two_connections_world
    = (Value 4%nat,
       transmitted 2%nat (Sock.mk Connected None []) (list_byte_of_string "h 3 off 0")
         (closed 0%nat (Sock.mk Connected None []) two_connections_world)).
Proof.
  apply (close_leaves_other_connections Off two_connections_world 1%nat 4%nat
           (Server.mk (lit "192.168.0.90") 8509 0%nat) (Sock.mk Connected None [])
           (Pin.mk 2%nat 3 (lit "h") 0) (Sock.mk Connected None [])).
  - vm_compute; reflexivity.
  - vm_compute; reflexivity.
  - repeat split; vm_compute; reflexivity.
  - discriminate.
  - vm_compute; reflexivity.
  - vm_compute; reflexivity.
Defined.

(** X5.  [pin()] does not look at the state of the connection: on a
    closed connection it still returns a new handle, and it is the
    first action on that handle that raises, leaving the store as it
    was: the [ValueError] of the f-string when the time value or the pin
    number has more than 4300 digits, else the [UnicodeEncodeError] of
    [encode()] when the numbering cannot be encoded, else the [OSError]
    of [sendall] on the closed socket. *)
Theorem pin_after_close_then_action_raises (a : action) (w : world) (srv : ref)
    (c : Server.obj) (s : Sock.obj) (pin_number : Z) (numbering : option str) :
  heap w !! srv = Some (RemoteServerObject c) ->
  heap w !! Server.client_socket c = Some (Socket s) ->
  exists h w',
    (RemoteServer.close srv;; RemoteServer.pin srv pin_number numbering) w = (Value h, w') /\
    heap w !! h = None /\
    heap w' !! h =
      Some (RemotePinObject
              (Pin.mk (Server.client_socket c) pin_number
                      (match numbering with Some n => n | None => lit "b" end) 0)) /\
    call a h w' =
      (Raise (if int_fits_str (action_time a) && int_fits_str pin_number then
                match encode (match numbering with Some n => n | None => lit "b" end) with
                | Some _ => OSError EBADF
                | None => UnicodeEncodeError
                end
              else ValueError), w').
Proof.
  intros Hc Hs. pose proof (server_is_no_socket _ _ _ _ _ Hc Hs) as Hne.
  unfold mbind, M_bind. rewrite (close_unfold _ _ _ _ Hc Hs).
  set (w1 := set_heap _ w).
  assert (heap w1 !! srv = Some (RemoteServerObject c)) as Hc1
    by (simpl; by rewrite lookup_insert_ne).
  rewrite (pin_unfold _ _ _ _ _ Hc1).
  set (h := fresh (dom (heap w1))).
  assert (heap w1 !! h = None) as Hh by apply fresh_unused.
  assert (h <> Server.client_socket c) as Hhs.
  { intros E. rewrite E in Hh. simpl in Hh. by rewrite lookup_insert_eq in Hh. }
  eexists h, _. split; [reflexivity|]. split; [|split].
  - simpl in Hh. by rewrite lookup_insert_ne in Hh.
  - simpl. rewrite lookup_insert_eq. by destruct numbering.
  - rewrite (call_closed a _ h
               (Pin.mk (Server.client_socket c) pin_number (default (lit "b") numbering) 0)
               (Sock.mk Closed (Sock.budget s) (Sock.sent s))).
    + unfold closed_socket_error, formats. by destruct numbering.
    + simpl. by rewrite lookup_insert_eq.
    + simpl. rewrite lookup_insert_ne by done. by rewrite lookup_insert_eq.
    + reflexivity.
Qed.

Lemma pin_after_close_then_action_raises_witness :
  exists h w',
    (RemoteServer.close 1%nat;; RemoteServer.pin 1%nat 5 None) (session_world (lit "b"))
      = (Value h, w') /\
    heap (session_world (lit "b")) !! h = None /\
    heap w' !! h = Some (RemotePinObject (Pin.mk 0%nat 5 (lit "b") 0)) /\
    call Pulse h w' = (Raise (OSError EBADF), w').
Proof.
  apply (pin_after_close_then_action_raises Pulse (session_world (lit "b")) 1%nat
           (Server.mk (lit "192.168.0.90") 8509 0%nat) (Sock.mk Connected None []) 5 None);
    vm_compute; reflexivity.
Defined.

(** X6.  Handles of one connection write to one stream, in call order.
    For two handles with the same socket, connected over a healthy link,
    whose numberings can be encoded and whose pin numbers and time
    values have at most 4300 digits, an action on one followed by an
    action on the other leaves the two commands on that socket one after
    the other, with nothing between them. *)
Theorem handles_write_in_call_order (a1 a2 : action) (w : world) (h1 h2 : ref)
    (p1 p2 : Pin.obj) (s : Sock.obj) (nb1 nb2 : bytes) :
  ready w h1 p1 s ->
  ready w h2 p2 s ->
  Pin.client_socket p1 = Pin.client_socket p2 ->
  formats p1 a1 = true ->
  formats p2 a2 = true ->
  encode (Pin.numbering p1) = Some nb1 ->
  encode (Pin.numbering p2) = Some nb2 ->
  (call a1 h1;; call a2 h2) w
    = (Value h2,
       transmitted (Pin.client_socket p1) s
         (wire_bytes nb1 (Pin.pin_number p1) (action_token a1) (action_time a1)
            ++ wire_bytes nb2 (Pin.pin_number p2) (action_token a2) (action_time a2)) w).
Proof.
  intros R1 R2 Hs Hf1 Hf2 Hn1 Hn2. unfold mbind, M_bind.
  rewrite (call_ready a1 w h1 p1 s
             (wire_bytes nb1 (Pin.pin_number p1) (action_token a1) (action_time a1)) R1 Hf1)
    by (rewrite encode_wire_string by apply action_token_ascii; by rewrite Hn1).
  rewrite Hs.
  rewrite (call_ready a2 _ h2 p2 _
             (wire_bytes nb2 (Pin.pin_number p2) (action_token a2) (action_time a2))
             (ready_transmitted _ _ _ _ _ R2) Hf2)
    by (rewrite encode_wire_string by apply action_token_ascii; by rewrite Hn2).
  by rewrite transmitted_twice.
Qed.

Lemma handles_write_in_call_order_witness :
  (call (On (Some 5%Z)) 2%nat;; call Off 3%nat) two_pins_world
    = (Value 3%nat,
       transmitted 0%nat (Sock.mk Connected None [])
         (list_byte_of_string "b 8 on 5h 3 off 0") two_pins_world).
Proof.
  apply (handles_write_in_call_order (On (Some 5%Z)) Off two_pins_world 2%nat 3%nat
           (Pin.mk 0%nat 8 (lit "b") 0) (Pin.mk 0%nat 3 (lit "h") 0)
           (Sock.mk Connected None [])
           (list_byte_of_string "b") (list_byte_of_string "h")).
  - repeat split; vm_compute; reflexivity.
  - repeat split; vm_compute; reflexivity.
  - reflexivity.
  - vm_compute; reflexivity.
  - vm_compute; reflexivity.
  - vm_compute; reflexivity.
  - vm_compute; reflexivity.
Defined.

(** ** The constructor *)

(** The constructor in full: the two objects it always creates, and
    what it ends with.  It returns only where a listener answers at an
    address in range; every exception leaves the store with the two new
    objects and nothing else changed. *)
Lemma init_cases (server_ip : str) (server_port : Z) (w : world) :
  let sock := fresh (dom (heap w)) in
  let h1 := <[sock := Socket (Sock.mk Unconnected None [])]> (heap w) in
  let self := fresh (dom h1) in
  let h2 := <[self := RemoteServerObject (Server.mk server_ip server_port sock)]> h1 in
  sock <> self /\
  ((exists x, RemoteServer.__init__ server_ip server_port w = (Raise x, set_heap h2 w) /\
              (((exists e, network w server_ip server_port = Unreachable e) \/
                (exists l, network w server_ip server_port = Listening l)) ->
               ((server_port < 0)%Z \/ (65535 < server_port)%Z) -> x = OverflowError)) \/
   (exists l, network w server_ip server_port = Listening l /\
              (0 <= server_port <= 65535)%Z /\
              RemoteServer.__init__ server_ip server_port w =
              (Value self, set_heap (<[sock := Socket (Sock.mk Connected l [])]> h2) w))).
Proof.
  intros sock h1 self h2.
  assert (sock <> self) as Hne.
  { intros E. pose proof (is_fresh (dom h1)) as Hf. fold self in Hf. rewrite <- E in Hf.
    apply Hf. unfold h1. rewrite dom_insert_L. by apply elem_of_union_l, elem_of_singleton. }
  split; [exact Hne|].
  unfold RemoteServer.__init__, socket.socket, socket.connect, connect_to, store.
  unfold mbind, M_bind, alloc, as_server, as_socket, mthrow, M_throw. simpl.
  fold sock. fold h1. fold self. fold h2.
  assert (h2 !! self = Some (RemoteServerObject (Server.mk server_ip server_port sock))) as ->
    by apply lookup_insert_eq.
  simpl.
  assert (h2 !! sock = Some (Socket (Sock.mk Unconnected None []))) as ->.
  { unfold h2. rewrite lookup_insert_ne by done. apply lookup_insert_eq. }
  unfold raise_if. simpl.
  destruct (network w server_ip server_port) as [e|l| |] eqn:Hnet; simpl.
  - left. destruct ((server_port <? -2147483648) || (2147483647 <? server_port))%Z;
      simpl; [by eexists|].
    destruct ((server_port <? 0) || (65535 <? server_port))%Z eqn:Hr; simpl.
    + by eexists.
    + eexists. split; [reflexivity|]. intros _ Hout.
      apply orb_false_elim in Hr as [H1 H2]. apply Z.ltb_ge in H1, H2. lia.
  - destruct ((server_port <? -2147483648) || (2147483647 <? server_port))%Z;
      simpl; [left; by eexists|].
    destruct ((server_port <? 0) || (65535 <? server_port))%Z eqn:Hr; simpl.
    + left. by eexists.
    + right. exists l. split; [reflexivity|]. split; [|reflexivity].
      apply orb_false_elim in Hr as [H1 H2]. apply Z.ltb_ge in H1, H2. lia.
  - left. eexists. split; [reflexivity|]. intros [[e He]|[l Hl]]; discriminate.
  - left. destruct ((server_port <? -2147483648) || (2147483647 <? server_port))%Z; simpl;
      (eexists; split; [reflexivity|]; intros [[e He]|[l Hl]]; discriminate).
Qed.

Lemma init_keeps_objects (server_ip : str) (server_port : Z) (w w' : world) (r : result ref) :
  RemoteServer.__init__ server_ip server_port w = (r, w') ->
  network w' = network w /\
  forall k o, heap w !! k = Some o -> heap w' !! k = Some o.
Proof.
  destruct (init_cases server_ip server_port w) as [Hne Hcases].
  set (sock := fresh (dom (heap w))) in *.
  set (h1 := <[sock := Socket (Sock.mk Unconnected None [])]> (heap w)) in *.
  set (self := fresh (dom h1)) in *.
  assert (forall k o, heap w !! k = Some o -> k <> sock /\ k <> self) as Hold.
  { intros k o Hk. split; intros ->.
    - pose proof (fresh_unused w) as Hf. fold sock in Hf. congruence.
    - pose proof (is_fresh (dom h1)) as Hf. fold self in Hf. apply Hf.
      unfold h1. rewrite dom_insert_L. apply elem_of_union_r, elem_of_dom. eauto. }
  intros E. destruct Hcases as [(x & E' & _)|(l & _ & _ & E')];
    rewrite E in E'; injection E' as -> ->; (split; [reflexivity|]);
    intros k o Hk; destruct (Hold k o Hk) as [H1 H2]; simpl;
    rewrite ?lookup_insert_ne by congruence; unfold h1;
    by rewrite lookup_insert_ne by congruence.
Qed.

(** X7.  The constructor does not clean up after a failed [connect].
    Whenever it raises, whatever the exception, the socket it created
    is still in the store, open and unconnected (it is not closed), and
    the objects that existed before are untouched.  Where the host
    parses and resolves (the network answers for the address, with a
    failed handshake or a listener), a port outside 0..65535 raises
    [OverflowError] before any handshake. *)
Theorem constructor_failures (server_ip : str) (server_port : Z) (w w' : world)
    (x : exception) :
  RemoteServer.__init__ server_ip server_port w = (Raise x, w') ->
  heap w' !! fresh (dom (heap w)) = Some (Socket (Sock.mk Unconnected None [])) /\
  (forall k o, heap w !! k = Some o -> heap w' !! k = Some o) /\
  (((exists e, network w server_ip server_port = Unreachable e) \/
    (exists l, network w server_ip server_port = Listening l)) ->
   ((server_port < 0)%Z \/ (65535 < server_port)%Z) -> x = OverflowError).
Proof.
  intros E. pose proof (init_keeps_objects _ _ _ _ _ E) as [_ Hkeep].
  destruct (init_cases server_ip server_port w) as [Hne [(y & E' & Hover)|(l & _ & _ & E')]];
    rewrite E in E'; [|discriminate].
  injection E' as -> ->. split; [|split; [exact Hkeep|exact Hover]].
  simpl. rewrite lookup_insert_ne by done. apply lookup_insert_eq.
Qed.

Lemma constructor_failures_witness :
  heap (RemoteServer.__init__ (lit "192.168.0.90") 70000 empty_world).2
    !! fresh (dom (heap empty_world))
    = Some (Socket (Sock.mk Unconnected None [])) /\
  (forall k o, heap empty_world !! k = Some o ->
     heap (RemoteServer.__init__ (lit "192.168.0.90") 70000 empty_world).2 !! k = Some o) /\
  (((exists e, network empty_world (lit "192.168.0.90") 70000%Z = Unreachable e) \/
    (exists l, network empty_world (lit "192.168.0.90") 70000%Z = Listening l)) ->
   ((70000 < 0)%Z \/ (65535 < 70000)%Z) -> OverflowError = OverflowError).
Proof.
  apply (constructor_failures (lit "192.168.0.90") 70000 empty_world).
  vm_compute; reflexivity.
Defined.

Lemma init_listening (server_ip : str) (server_port : Z) (w : world) (l : link) :
  (0 <= server_port <= 65535)%Z ->
  network w server_ip server_port = Listening l ->
  exists self w',
    RemoteServer.__init__ server_ip server_port w = (Value self, w') /\
    self <> fresh (dom (heap w)) /\
    heap w !! self = None /\
    heap w' !! self
      = Some (RemoteServerObject (Server.mk server_ip server_port (fresh (dom (heap w))))) /\
    heap w' !! fresh (dom (heap w)) = Some (Socket (Sock.mk Connected l [])).
Proof.
  intros Hport Hnet. destruct (init_unfold server_ip server_port w Hport) as [Hne E].
  rewrite Hnet in E. eexists _, _. split; [exact E|].
  split; [congruence|]. split; [|split].
  - pose proof (fresh_unused
                  (set_heap (<[fresh (dom (heap w)) := Socket (Sock.mk Unconnected None [])]>
                               (heap w)) w)) as Hf.
    simpl in Hf. by rewrite lookup_insert_ne in Hf.
  - simpl. rewrite lookup_insert_ne by done. apply lookup_insert_eq.
  - simpl. apply lookup_insert_eq.
Qed.

(** X8.  Every connection has a socket of its own.  Two constructions,
    one after the other, give two connection objects whose sockets are
    two different objects, each connected over the link of its own
    address. *)
Theorem connections_have_their_own_sockets (w : world) (ip1 ip2 : str) (port1 port2 : Z)
    (l1 l2 : link) :
  (0 <= port1 <= 65535)%Z ->
  (0 <= port2 <= 65535)%Z ->
  network w ip1 port1 = Listening l1 ->
  network w ip2 port2 = Listening l2 ->
  exists first second w' sock1 sock2,
    (a ← RemoteServer.__init__ ip1 port1;
     b ← RemoteServer.__init__ ip2 port2;
     mret (a, b)) w = (Value (first, second), w') /\
    heap w' !! first = Some (RemoteServerObject (Server.mk ip1 port1 sock1)) /\
    heap w' !! second = Some (RemoteServerObject (Server.mk ip2 port2 sock2)) /\
    first <> second /\
    sock1 <> sock2 /\
    heap w' !! sock1 = Some (Socket (Sock.mk Connected l1 [])) /\
    heap w' !! sock2 = Some (Socket (Sock.mk Connected l2 [])).
Proof.
  intros Hp1 Hp2 Hn1 Hn2.
  destruct (init_listening ip1 port1 w l1 Hp1 Hn1) as (a & w1 & E1 & Ha & _ & Hsrv1 & Hsk1).
  destruct (init_keeps_objects _ _ _ _ _ E1) as [Hnet1 _].
  rewrite <- Hnet1 in Hn2.
  destruct (init_listening ip2 port2 w1 l2 Hp2 Hn2) as (b & w2 & E2 & Hb & Hbnew & Hsrv2 & Hsk2).
  destruct (init_keeps_objects _ _ _ _ _ E2) as [_ Hkeep].
  exists a, b, w2, (fresh (dom (heap w))), (fresh (dom (heap w1))).
  split; [|split; [|split; [|split; [|split; [|split]]]]].
  - unfold mbind, M_bind. rewrite E1, E2. reflexivity.
  - by apply Hkeep.
  - exact Hsrv2.
  - intros ->. congruence.
  - intros E. pose proof (fresh_unused w1) as Hf. rewrite <- E in Hf. congruence.
  - by apply Hkeep.
  - exact Hsk2.
Qed.

Lemma connections_have_their_own_sockets_witness :
  exists first second w' sock1 sock2,
    (a ← RemoteServer.__init__ (lit "192.168.0.90") 8509;
     b ← RemoteServer.__init__ (lit "192.168.0.90") 8509;
     mret (a, b)) empty_world = (Value (first, second), w') /\
    heap w' !! first
      = Some (RemoteServerObject (Server.mk (lit "192.168.0.90") 8509 sock1)) /\
    heap w' !! second
      = Some (RemoteServerObject (Server.mk (lit "192.168.0.90") 8509 sock2)) /\
    first <> second /\
    sock1 <> sock2 /\
    heap w' !! sock1 = Some (Socket (Sock.mk Connected None [])) /\
    heap w' !! sock2 = Some (Socket (Sock.mk Connected None [])).
Proof.
  apply (connections_have_their_own_sockets empty_world
           (lit "192.168.0.90") (lit "192.168.0.90") 8509 8509 None None);
    (lia || reflexivity).
Defined.

(** ** Whole sessions *)

(** Connecting and taking a handle: against a listener with a healthy
    link the handle is ready at once, on the socket the constructor
    made. *)
Lemma connect_and_pin (w : world) (server_ip : str) (server_port : Z) (pin_number : Z)
    (numbering : option str) :
  (0 <= server_port <= 65535)%Z ->
  network w server_ip server_port = Listening None ->
  let sock := fresh (dom (heap w)) in
  let p := Pin.mk sock pin_number (default (lit "b") numbering) 0 in
  exists srv w1 h w2,
    RemoteServer.__init__ server_ip server_port w = (Value srv, w1) /\
    RemoteServer.pin srv pin_number numbering w1 = (Value h, w2) /\
    ready w2 h p (Sock.mk Connected None []) /\
    heap w2 !! srv = Some (RemoteServerObject (Server.mk server_ip server_port sock)) /\
    forall k o, heap w !! k = Some o -> k <> sock /\ heap w2 !! k = Some o.
Proof.
  intros Hport Hnet sock p.
  destruct (init_listening server_ip server_port w None Hport Hnet)
    as (self & w1 & E1 & Hself & _ & Hsrv & Hsk).
  destruct (init_keeps_objects _ _ _ _ _ E1) as [_ Hkeep].
  fold sock in Hself, Hsrv, Hsk.
  set (h := fresh (dom (heap w1))).
  pose proof (fresh_unused w1) as Hh. fold h in Hh.
  assert (h <> sock) as Hhs by (intros E; rewrite E in Hh; congruence).
  assert (h <> self) as Hhself by (intros E; rewrite E in Hh; congruence).
  eexists self, w1, h, _. split; [exact E1|]. split; [by apply pin_unfold|].
  simpl. split; [|split].
  - repeat split; simpl; [apply lookup_insert_eq|by rewrite lookup_insert_ne].
  - by rewrite lookup_insert_ne.
  - intros k o Hk. split.
    + intros ->. pose proof (fresh_unused w) as Hf. fold sock in Hf. congruence.
    + apply Hkeep in Hk. rewrite lookup_insert_ne; [done|].
      intros E. unfold h in *. rewrite <- E in Hk. congruence.
Qed.

(** X9.  A whole session against a listener with a healthy link, with a
    port in range, a numbering that can be encoded, and a pin number
    and time values of at most 4300 digits: constructing the connection,
    taking a handle with [pin()], running the chain of actions on it and
    closing returns normally, puts exactly the commands of the chain, in
    order and back to back, on the connection's socket and leaves that
    socket closed; objects that existed before are untouched. *)
Theorem session_sends_chain_and_closes (w : world) (server_ip : str) (server_port : Z)
    (pin_number : Z) (numbering : option str) (actions : list action) (nb : bytes) :
  (0 <= server_port <= 65535)%Z ->
  network w server_ip server_port = Listening None ->
  int_fits_str pin_number = true ->
  forallb (fun a => int_fits_str (action_time a)) actions = true ->
  encode (match numbering with Some n => n | None => lit "b" end) = Some nb ->
  exists w',
    run_session server_ip server_port pin_number numbering actions w = (Value tt, w') /\
    heap w' !! fresh (dom (heap w))
      = Some (Socket (Sock.mk Closed None (chain_bytes nb pin_number actions))) /\
    forall k o, heap w !! k = Some o -> heap w' !! k = Some o.
Proof.
  intros Hport Hnet Hpin Htimes Hnb.
  destruct (connect_and_pin w server_ip server_port pin_number numbering Hport Hnet)
    as (srv & w1 & h & w2 & E1 & E2 & Hr & Hsrv & Hold).
  pose proof Hr as (_ & Hsk & _).
  pose proof (server_is_no_socket _ _ _ _ _ Hsrv Hsk) as Hne. simpl in Hne.
  eexists. split; [|split].
  - unfold run_session, mbind, M_bind. rewrite E1, E2.
    rewrite (chain_ready actions w2 h _ _ nb Hr).
    + apply (close_unfold srv _ (Server.mk server_ip server_port (fresh (dom (heap w))))).
      * simpl. by rewrite lookup_insert_ne.
      * simpl. apply lookup_insert_eq.
    + unfold formats. simpl Pin.pin_number. rewrite Hpin.
      clear -Htimes. induction actions as [|a rest IH]; [reflexivity|].
      simpl in *. apply andb_prop in Htimes as [-> Hrest]. by rewrite (IH Hrest).
    + simpl. by destruct numbering.
  - simpl. by rewrite lookup_insert_eq.
  - intros k o Hk. destruct (Hold k o Hk) as [Hks Hk2].
    simpl. by rewrite !lookup_insert_ne.
Qed.

Lemma session_sends_chain_and_closes_witness :
  exists w',
    run_session (lit "127.0.0.1") 9000 3 (Some (lit "h")) [Off] empty_world = (Value tt, w') /\
    heap w' !! fresh (dom (heap empty_world))
      = Some (Socket (Sock.mk Closed None (list_byte_of_string "h 3 off 0"))) /\
    forall k o, heap empty_world !! k = Some o -> heap w' !! k = Some o.
Proof.
  apply (session_sends_chain_and_closes empty_world (lit "127.0.0.1") 9000 3
           (Some (lit "h")) [Off] (list_byte_of_string "h"));
    [lia|reflexivity|vm_compute; reflexivity|vm_compute; reflexivity|vm_compute; reflexivity].
Defined.

(** Dropping the value an action returns and calling the next method on
    the handle again is the same as chaining. *)
Lemma bind_call_self {B : Type} (a : action) (h : ref) (k : ref -> M B) (w : world) :
  (call a h;; k h) w = (next ← call a h; k next) w.
Proof.
  unfold mbind, M_bind. destruct (call a h w) as [[v|x] w1] eqn:E; [|reflexivity].
  by apply call_returns_self in E as ->.
Qed.

Lemma main_is_a_session (w : world) :
  main w =
  run_session (lit "192.168.0.90") 8509 8 (Some (lit "b"))
              [On (Some 2000%Z); Blink; On None; Off] w.
Proof.
  unfold main, run_session. cbn [chain].
  change RemotePin.on with (fun h t => call (On t) h).
  change RemotePin.blink with (call Blink).
  change RemotePin.off with (call Off).
  cbv beta. unfold mbind, M_bind, mret, M_ret.
  destruct (RemoteServer.__init__ _ _ w) as [[srv|x] w1]; [|reflexivity].
  destruct (RemoteServer.pin srv 8 _ w1) as [[h|x] w2]; [|reflexivity].
  destruct (call (On (Some 2000%Z)) h w2) as [[v1|x] w3] eqn:E1; [|reflexivity].
  apply call_returns_self in E1 as ->.
  destruct (call Blink h w3) as [[v2|x] w4] eqn:E2; [|reflexivity].
  apply call_returns_self in E2 as ->.
  destruct (call (On None) h w4) as [[v3|x] w5] eqn:E3; [|reflexivity].
  apply call_returns_self in E3 as ->.
  destruct (call Off h w5) as [[v4|x] w6] eqn:E4; reflexivity.
Qed.

(** X10.  The script of the source.  Where a listener with a healthy
    link answers at 192.168.0.90:8509, the script returns normally, the
    new socket has taken exactly the bytes
    [b 8 on 2000b 8 blink 0b 8 on 0b 8 off 0] and is closed.  Where the
    handshake fails, the script raises the [OSError] of [connect] from
    its first statement: no handle is made, nothing is sent, and
    [close()] is never reached.  In both cases objects that existed
    before are untouched. *)
Theorem main_script (w : world) :
  (network w (lit "192.168.0.90") 8509%Z = Listening None ->
   exists w',
     main w = (Value tt, w') /\
     heap w' !! fresh (dom (heap w))
       = Some (Socket (Sock.mk Closed None
                 (list_byte_of_string "b 8 on 2000b 8 blink 0b 8 on 0b 8 off 0"))) /\
     forall k o, heap w !! k = Some o -> heap w' !! k = Some o) /\
  (forall e,
     network w (lit "192.168.0.90") 8509%Z = Unreachable e ->
     exists w',
       main w = (Raise (OSError e), w') /\
       heap w' !! fresh (dom (heap w)) = Some (Socket (Sock.mk Unconnected None [])) /\
       forall k o, heap w !! k = Some o -> heap w' !! k = Some o).
Proof.
  split.
  - intros Hnet. rewrite main_is_a_session.
    destruct (connect_and_pin w (lit "192.168.0.90") 8509 8 (Some (lit "b")))
      as (srv & w1 & h & w2 & E1 & E2 & Hr & Hsrv & Hold); [lia|exact Hnet|].
    pose proof Hr as (_ & Hsk & _).
    pose proof (server_is_no_socket _ _ _ _ _ Hsrv Hsk) as Hne. simpl in Hne.
    eexists. split; [|split].
    + unfold run_session, mbind, M_bind. rewrite E1, E2.
      rewrite (chain_ready _ w2 h _ _ (list_byte_of_string "b") Hr) by reflexivity.
      apply (close_unfold srv _ (Server.mk (lit "192.168.0.90") 8509 (fresh (dom (heap w))))).
      * simpl. by rewrite lookup_insert_ne.
      * simpl. apply lookup_insert_eq.
    + simpl. by rewrite lookup_insert_eq.
    + intros k o Hk. destruct (Hold k o Hk) as [Hks Hk2].
      simpl. by rewrite !lookup_insert_ne.
  - intros e Hnet. rewrite main_is_a_session. unfold run_session, mbind, M_bind.
    destruct (RemoteServer.__init__ (lit "192.168.0.90") 8509 w) as [r w'] eqn:E.
    pose proof (init_keeps_objects _ _ _ _ _ E) as [_ Hkeep].
    destruct (init_unfold (lit "192.168.0.90") 8509 w) as [Hne E']; [lia|].
    rewrite E, Hnet in E'. injection E' as -> ->.
    eexists. split; [reflexivity|]. split; [|exact Hkeep].
    simpl. rewrite lookup_insert_ne by done. apply lookup_insert_eq.
Qed.

Lemma main_script_witness :
  (exists w',
     main empty_world = (Value tt, w') /\
     heap w' !! fresh (dom (heap empty_world))
       = Some (Socket (Sock.mk Closed None
                 (list_byte_of_string "b 8 on 2000b 8 blink 0b 8 on 0b 8 off 0"))) /\
     forall k o, heap empty_world !! k = Some o -> heap w' !! k = Some o) /\
  (exists w',
     main (mkWorld ∅ dead_network) = (Raise (OSError ETIMEDOUT), w') /\
     heap w' !! fresh (dom (heap (mkWorld ∅ dead_network)))
       = Some (Socket (Sock.mk Unconnected None [])) /\
     forall k o, heap (mkWorld ∅ dead_network) !! k = Some o -> heap w' !! k = Some o).
Proof.
  split.
  - apply (main_script empty_world). reflexivity.
  - apply (main_script (mkWorld ∅ dead_network)). reflexivity.
Defined.

(** X11.  After any chain of actions on any handle, whether the chain
    returned or raised, the connection can still be closed: [close()]
    returns normally and leaves the socket closed, with the bytes it had
    taken by then.  The chain itself has not closed it: the socket is in
    the state it was in before the chain. *)
Theorem close_after_any_chain (actions : list action) (w w1 : world) (srv h : ref)
    (c : Server.obj) (s : Sock.obj) (r : result ref) :
  heap w !! srv = Some (RemoteServerObject c) ->
  heap w !! Server.client_socket c = Some (Socket s) ->
  chain actions h w = (r, w1) ->
  exists s1,
    heap w1 !! Server.client_socket c = Some (Socket s1) /\
    Sock.state s1 = Sock.state s /\
    RemoteServer.close srv w1 = (Value tt, closed (Server.client_socket c) s1 w1).
Proof.
  intros Hc Hs Hchain. apply chain_same_objects in Hchain as [Hsame _].
  pose proof (same_objects_server _ _ _ _ Hsame Hc) as Hc1.
  destruct Hsame as [_ Hobj]. specialize (Hobj (Server.client_socket c)).
  rewrite Hs in Hobj. destruct Hobj as (s1 & Hs1 & Hst).
  exists s1. split; [exact Hs1|]. split; [exact Hst|]. by apply close_unfold.
Qed.

Lemma close_after_any_chain_witness :
  exists s1,
    heap (chain [Blink; Off] 2%nat (closed 0%nat (Sock.mk Connected None [])
                                      (session_world (lit "b")))).2 !! 0%nat
      = Some (Socket s1) /\
    Sock.state s1 = Closed /\
    RemoteServer.close 1%nat
      (chain [Blink; Off] 2%nat (closed 0%nat (Sock.mk Connected None [])
                                   (session_world (lit "b")))).2
    = (Value tt,
       closed 0%nat s1
         (chain [Blink; Off] 2%nat (closed 0%nat (Sock.mk Connected None [])
                                      (session_world (lit "b")))).2).
Proof.
  apply (close_after_any_chain [Blink; Off]
           (closed 0%nat (Sock.mk Connected None []) (session_world (lit "b")))
           _ 1%nat 2%nat (Server.mk (lit "192.168.0.90") 8509 0%nat)
           (Sock.mk Closed None [])
           (chain [Blink; Off] 2%nat (closed 0%nat (Sock.mk Connected None [])
                                        (session_world (lit "b")))).1).
  - vm_compute; reflexivity.
  - vm_compute; reflexivity.
  - by destruct (chain [Blink; Off] 2%nat _).
Defined.

(** ** Handles built directly *)


